(** * ggg-cpuid: the CPUID enumeration engine and the ARM register-read surface

    A shallow embedding of [ia32/ggg-cpuid.c] and [arm/ggg-driver.c].

    C integers are modelled as [Z] with every conversion and wrap-around
    written out.  The query primitive (the [cpuid] instruction behind
    [do_cpuid]) is a function [hw : Z -> Z -> cpuid_result].  Everything a
    run does that an observer may care about is recorded in a trace of
    events: the selectors handed to the instruction, the rows printed and
    the calls of [cpuid_leaf].  Loops carry fuel; a run ends as [Returned],
    as [Undefined] (signed overflow of an [int]) or as [OutOfFuel]. *)

From Stdlib Require Import ZArith List Bool Lia.
Import ListNotations.
Local Open Scope Z_scope.

(** ** Machine integers of the ia32 and AArch32 ABIs *)

Module CInt.

Definition UINT32_MAX : Z := 0xffffffff.
Definition INT_MAX : Z := 0x7fffffff.

(** Conversion to [uint32_t] (also [unsigned int] and, on AArch32,
    [size_t]): reduction modulo 2^32 (C11 6.3.1.3p2). *)
Definition to_uint32 (z : Z) : Z := z mod 2 ^ 32.

(** Conversion to [int]: implementation-defined when the value does not
    fit (C11 6.3.1.3p3); gcc and clang reduce modulo 2^32 into the
    two's-complement range. *)
Definition to_int (z : Z) : Z :=
  let u := z mod 2 ^ 32 in if u <? 2 ^ 31 then u else u - 2 ^ 32.

(** A scalar used as a C truth value. *)
Definition truth (z : Z) : bool := negb (z =? 0).

(** [a || b]: an [int] that is 0 or 1. *)
Definition lor (a b : Z) : Z := if truth a || truth b then 1 else 0.

Definition in_uint32 (z : Z) : Prop := 0 <= z <= UINT32_MAX.

End CInt.

(** ** ia32/ggg-cpuid.c *)

(** [struct cpuid_result_t]: four [uint32_t] registers, no padding. *)
Record cpuid_result : Type := mk_result {
  eax : Z;
  ebx : Z;
  ecx : Z;
  edx : Z
}.

Definition zero_result : cpuid_result := mk_result 0 0 0 0.

(** The query primitive: the [cpuid] instruction as a function of the
    selector. *)
Definition primitive : Type := Z -> Z -> cpuid_result.

Definition well_typed (r : cpuid_result) : Prop :=
  CInt.in_uint32 (eax r) /\ CInt.in_uint32 (ebx r) /\
  CInt.in_uint32 (ecx r) /\ CInt.in_uint32 (edx r).

(** *** Traces and outcomes *)

Inductive event : Type :=
| EvLeaf (leaf : Z)                              (* cpuid_leaf entered *)
| EvQuery (leaf subleaf : Z)                     (* cpuid executed *)
| EvRow (leaf subleaf : Z) (r : cpuid_result).   (* print_subleaf *)

Definition trace : Type := list event.

Inductive outcome (A : Type) : Type :=
| Returned (a : A) (t : trace)
| Undefined (t : trace)
| OutOfFuel (t : trace).

Arguments Returned {A} a t.
Arguments Undefined {A} t.
Arguments OutOfFuel {A} t.

Definition ret {A : Type} (a : A) : outcome A := Returned a [].

Definition bind {A B : Type} (m : outcome A) (k : A -> outcome B) : outcome B :=
  match m with
  | Returned a t =>
      match k a with
      | Returned b t' => Returned b (t ++ t')
      | Undefined t' => Undefined (t ++ t')
      | OutOfFuel t' => OutOfFuel (t ++ t')
      end
  | Undefined t => Undefined t
  | OutOfFuel t => OutOfFuel t
  end.

Notation "x <- m ;; k" := (bind m (fun x => k))
  (at level 61, m at next level, right associativity).
Notation "m ;; k" := (bind m (fun _ => k))
  (at level 61, right associativity).

Definition trace_of {A : Type} (o : outcome A) : trace :=
  match o with
  | Returned _ t => t
  | Undefined t => t
  | OutOfFuel t => t
  end.

(** Projections of a trace: the selectors queried, the rows printed and the
    leaves [cpuid_leaf] was called with, each in order of occurrence. *)
Fixpoint queries_of (t : trace) : list (Z * Z) :=
  match t with
  | [] => []
  | EvQuery l s :: t' => (l, s) :: queries_of t'
  | _ :: t' => queries_of t'
  end.

Fixpoint rows_of (t : trace) : list (Z * Z * cpuid_result) :=
  match t with
  | [] => []
  | EvRow l s r :: t' => (l, s, r) :: rows_of t'
  | _ :: t' => rows_of t'
  end.

Fixpoint leaves_of (t : trace) : list Z :=
  match t with
  | [] => []
  | EvLeaf l :: t' => l :: leaves_of t'
  | _ :: t' => leaves_of t'
  end.

(** *** do_cpuid, print_subleaf *)

Definition do_cpuid (hw : primitive) (leaf subleaf : Z) : outcome cpuid_result :=
  Returned (hw leaf subleaf) [EvQuery leaf subleaf].

Definition print_subleaf (leaf subleaf : Z) (r : cpuid_result) : outcome unit :=
  Returned tt [EvRow leaf subleaf r].

(** *** memcmp over the object representation of a cpuid_result *)

(** The four bytes of a [uint32_t], little-endian as on ia32. *)
Definition bytes_of_uint32 (w : Z) : list Z :=
  [w mod 256; (w / 2 ^ 8) mod 256; (w / 2 ^ 16) mod 256; (w / 2 ^ 24) mod 256].

Definition bytes_of_result (r : cpuid_result) : list Z :=
  bytes_of_uint32 (eax r) ++ bytes_of_uint32 (ebx r) ++
  bytes_of_uint32 (ecx r) ++ bytes_of_uint32 (edx r).

(** [memcmp] over two buffers of the same length: the difference of the
    first pair of bytes that differ, 0 when there is none. *)
Fixpoint memcmp (a b : list Z) : Z :=
  match a, b with
  | x :: a', y :: b' => if x =? y then memcmp a' b' else x - y
  | _, _ => 0
  end.

(** *** cpuid_leaf *)

(** The loop condition [subleaf > -1].  [subleaf] is a [uint32_t] and [-1]
    an [int]; the usual arithmetic conversions (C11 6.3.1.8) convert the
    [int] operand to [unsigned int], so the comparison is against
    [(unsigned) -1]. *)
Definition subleaf_guard (subleaf : Z) : bool :=
  subleaf >? CInt.to_uint32 (-1).

(** The [switch (leaf)] of the loop body: [true] when the body executes
    [return] before [print_subleaf]. *)
Definition stop_condition (leaf subleaf : Z) (r last_subleaf : cpuid_result) : bool :=
  if leaf =? 0x7 then
    subleaf >? eax r
  else if leaf =? 0xb then
    CInt.lor (CInt.lor (eax r) (ebx r))
             (Z.land (ecx r) (CInt.to_uint32 (Z.lnot 0xff))) =? 0
  else if leaf =? 0x14 then
    subleaf >? eax r
  else if leaf =? 0x1f then
    Z.land (ecx r) 0xff00 =? 0
  else
    (CInt.lor (CInt.lor (CInt.lor (eax r) (ebx r)) (ecx r)) (edx r) =? 0)
    || (memcmp (bytes_of_result last_subleaf) (bytes_of_result r) =? 0).

(** [for (uint32_t subleaf = 0; subleaf > -1; ++subleaf) { ... }], entered
    with the current [subleaf] and [last_subleaf]. *)
Fixpoint cpuid_leaf_loop (fuel : nat) (hw : primitive)
    (leaf subleaf : Z) (last_subleaf : cpuid_result) : outcome unit :=
  match fuel with
  | O => OutOfFuel []
  | S fuel' =>
      if subleaf_guard subleaf then
        r <- do_cpuid hw leaf subleaf ;;
        if stop_condition leaf subleaf r last_subleaf then ret tt
        else
          print_subleaf leaf subleaf r ;;
          cpuid_leaf_loop fuel' hw leaf (CInt.to_uint32 (subleaf + 1)) r
      else ret tt
  end.

Definition cpuid_leaf (fuel : nat) (hw : primitive) (leaf : Z) : outcome unit :=
  Returned tt [EvLeaf leaf] ;;
  cpuid_leaf_loop fuel hw leaf 0 zero_result.

(** *** cpuid_level *)

(** [for (int leaf = level; leaf <= max_leaf; ++leaf) cpuid_leaf(leaf);]
    [leaf] is an [int] and [max_leaf] a [uint32_t]: the comparison and the
    argument of [cpuid_leaf] see [leaf] converted to [uint32_t]; [++leaf]
    at [INT_MAX] is a signed overflow. *)
Fixpoint cpuid_level_loop (fuel leaf_fuel : nat) (hw : primitive)
    (leaf max_leaf : Z) : outcome unit :=
  match fuel with
  | O => OutOfFuel []
  | S fuel' =>
      if CInt.to_uint32 leaf <=? max_leaf then
        cpuid_leaf leaf_fuel hw (CInt.to_uint32 leaf) ;;
        if leaf =? CInt.INT_MAX then Undefined []
        else cpuid_level_loop fuel' leaf_fuel hw (leaf + 1) max_leaf
      else ret tt
  end.

Definition cpuid_level (fuel : nat) (hw : primitive) (level : Z) : outcome unit :=
  r <- do_cpuid hw level 0 ;;
  let max_leaf := eax r in
  cpuid_level_loop fuel fuel hw (CInt.to_int level) max_leaf.

(** *** dump_cpuid *)

Definition dump_cpuid (fuel : nat) (hw : primitive) : outcome unit :=
  cpuid_level fuel hw 0 ;;
  cpuid_level fuel hw 0x80000000.

(** *** main, after option parsing

    [opt_leaf] and [opt_subleaf] are the values of [-l] and [-s] when
    given.  Both variables start as [0xffffffff] and an option overwrites
    its variable with the parsed number converted to [uint32_t].  The two
    header lines and the parsing itself are left out.  The result is the
    exit status. *)
Definition option_value (opt : option Z) : Z :=
  match opt with
  | Some v => CInt.to_uint32 v
  | None => 0xffffffff
  end.

Definition main (fuel : nat) (hw : primitive) (opt_leaf opt_subleaf : option Z)
    : outcome Z :=
  let leaf := option_value opt_leaf in
  let subleaf := option_value opt_subleaf in
  (if negb (leaf =? 0xffffffff) then
     if negb (subleaf =? 0xffffffff) then
       r <- do_cpuid hw leaf subleaf ;;
       print_subleaf leaf subleaf r
     else
       cpuid_leaf fuel hw leaf
   else
     dump_cpuid fuel hw) ;;
  ret 0.

(** *** Consecutive leaves and scripted primitives *)

(** [first; first + 1; ...], [n] values. *)
Fixpoint leaf_range (first : Z) (n : nat) : list Z :=
  match n with
  | O => []
  | S n' => first :: leaf_range (first + 1) n'
  end.

(** A primitive that answers zero everywhere. *)
Definition hw_zero : primitive := fun _ _ => zero_result.


(** Leaf 0x7 reporting maximum subleaf 2 in every subleaf, with the
    subleaves told apart by EBX. *)
Definition hw_leaf7 : primitive :=
  fun leaf subleaf =>
    if leaf =? 0x7 then mk_result 2 (0x100 + subleaf) 0 0 else zero_result.

(** A leaf outside the table (0x4): subleaves 0 and 1 differ and are
    nonzero, subleaf 2 repeats subleaf 1. *)
Definition hw_repeat : primitive :=
  fun leaf subleaf =>
    if leaf =? 0x4 then
      if subleaf =? 0 then mk_result 0x121 0x1c0003f 0x3f 0
      else mk_result 0x143 0x1c0003f 0x3ff 0
    else zero_result.

(** Leaf 0xb: level types 1 and 2 at subleaves 0 and 1, an invalid level
    (EAX = EBX = 0, ECX[15:8] = 0) from subleaf 2 on; ECX[7:0] echoes the
    subleaf and EDX is the x2APIC id. *)
Definition hw_leafb : primitive :=
  fun leaf subleaf =>
    if leaf =? 0xb then
      if subleaf =? 0 then mk_result 1 2 0x100 5
      else if subleaf =? 1 then mk_result 4 8 0x201 5
      else mk_result 0 0 (Z.land subleaf 0xff) 5
    else zero_result.

(** Leaf 0x1f: domain types 1 and 2 at subleaves 0 and 1, domain type 0
    from subleaf 2 on. *)
Definition hw_leaf1f : primitive :=
  fun leaf subleaf =>
    if leaf =? 0x1f then
      if subleaf =? 0 then mk_result 1 2 0x100 5
      else if subleaf =? 1 then mk_result 4 8 0x201 5
      else mk_result 0 0 (Z.land subleaf 0xff) 5
    else zero_result.

(** A primitive whose every level reports maximum leaf [0xffffffff]. *)
Definition hw_max_leaf : primitive :=
  fun _ _ => mk_result 0xffffffff 0 0 0.

(** Standard level up to leaf 1, extended level up to 0x80000001. *)
Definition hw_two_levels : primitive :=
  fun leaf subleaf =>
    if leaf =? 0 then mk_result 1 0x756e6547 0x6c65746e 0x49656e69
    else if leaf =? 0x80000000 then mk_result 0x80000001 0 0 0
    else mk_result 0x306a9 0 0 0.

(** A primitive whose every level reports maximum leaf [0x7fffffff]. *)
Definition hw_int_max : primitive :=
  fun _ _ => mk_result 0x7fffffff 0 0 0.

(** ** arm/ggg-driver.c *)

Module Arm.

Definition EFAULT : Z := 14.

(** User memory: the byte stored at every address the caller may write,
    [None] at the others. *)
Definition umem : Type := Z -> option Z.

Definition store (m : umem) (addr byte : Z) : umem :=
  fun a => if a =? addr then Some byte else m a.

(** [put_user(x, ptr)] with [ptr] a [char *]: stores the low byte of [x];
    0 on success, [-EFAULT] when the address is not writable. *)
Definition put_user (x ptr : Z) (m : umem) : Z * umem :=
  match m ptr with
  | Some _ => (0, store m ptr (x mod 256))
  | None => (- EFAULT, m)
  end.

(** [while (count--) { ... buffer++; }]: [count] is the value before the
    test, the body sees it decremented. *)
Fixpoint put_word_loop (count : nat) (cpuid_val buffer : Z) (m : umem)
    : Z * umem :=
  match count with
  | O => (0, m)
  | S count' =>
      let '(err, m') :=
        put_user (Z.shiftr cpuid_val ((3 - Z.of_nat count') * 8)) buffer m in
      if CInt.truth err then (- EFAULT, m')
      else put_word_loop count' cpuid_val (buffer + 1) m'
  end.

Definition put_word (cpuid_val buffer : Z) (m : umem) : Z * umem :=
  put_word_loop 4 cpuid_val buffer m.

(** The coprocessor read [mrc p15, 0, Rt, c0, cCRm, opc2] as a function
    of (CRm, opc2). *)
Definition coprocessor : Type := Z -> Z -> Z.

(** The register read under [case k + 1] of the switch. *)
Definition id_registers : list (Z * Z) :=
  [ (0, 0); (0, 1); (0, 2); (0, 3);
    (1, 0); (1, 1); (1, 2); (1, 3); (1, 4); (1, 5); (1, 6); (1, 7);
    (2, 0); (2, 1); (2, 2); (2, 3); (2, 4); (2, 5) ].

Definition mrc (cp15 : coprocessor) (k : nat) : Z :=
  let '(crm, opc2) := nth k id_registers (0, 0) in cp15 crm opc2.

(** What [device_read] hands back: a returned [ssize_t], or undefined
    behaviour when [count * 4] overflows [int]. *)
Inductive read_result : Type :=
| Ret (v : Z)
| Overflow.

(** The fall-through chain entered at [case n]: word [n - 1] is written
    at [buffer + (n - 1) * 4], then control falls into [case n - 1];
    [case 0] returns [count * 4]. *)
Fixpoint device_read_cases (n : nat) (cp15 : coprocessor)
    (buffer count : Z) (m : umem) : read_result * umem :=
  match n with
  | O => (if count * 4 <=? CInt.INT_MAX then Ret (count * 4) else Overflow, m)
  | S k =>
      let id := mrc cp15 k in
      let '(err, m') := put_word id (buffer + Z.of_nat k * 4) m in
      if CInt.truth err then (Ret (- EFAULT), m')
      else device_read_cases k cp15 buffer count m'
  end.

(** [switch (count)]: labels 0..18, [default] shares the entry of 18. *)
Definition entry_case (count : Z) : nat :=
  if (0 <=? count) && (count <=? 18) then Z.to_nat count else 18%nat.

(** The guard [length < 0]: [length] is a [size_t] (32 bits, unsigned, on
    AArch32) and [0] an [int], converted to [size_t] for the
    comparison. *)
Definition negative_length (length : Z) : bool :=
  length <? CInt.to_uint32 0.

(** [device_read] from [count = length/4] on. *)
Definition device_read_switch (cp15 : coprocessor) (buffer length : Z)
    (m : umem) : read_result * umem :=
  let count := CInt.to_int (length / 4) in
  device_read_cases (entry_case count) cp15 buffer count m.

(** [device_read]; [filp] and [offset] are not used by the code. *)
Definition device_read (cp15 : coprocessor) (buffer length : Z) (m : umem)
    : read_result * umem :=
  if negative_length length then (Ret 0, m)
  else device_read_switch cp15 buffer length m.

(** Sixty-four writable bytes from address 0x1000 on, all zero. *)
Definition small_buffer : umem :=
  fun a => if (0x1000 <=? a) && (a <? 0x1040) then Some 0 else None.

(** A coprocessor whose registers hold a recognisable pattern. *)
Definition cp15_pattern : coprocessor :=
  fun crm opc2 => 0x41000000 + crm * 0x100 + opc2.

(** An address the caller may write. *)
Definition writable (m : umem) (addr : Z) : bool :=
  match m addr with
  | Some _ => true
  | None => false
  end.

(** The four bytes from [addr] on hold [v], least significant byte
    first. *)
Definition holds_word (m : umem) (addr v : Z) : Prop :=
  forall j, 0 <= j < 4 -> m (addr + j) = Some (Z.shiftr v (j * 8) mod 256).

(** What a reader of the buffer puts together from the four bytes at
    [addr]. *)
Definition load_word (m : umem) (addr : Z) : option Z :=
  match m addr, m (addr + 1), m (addr + 2), m (addr + 3) with
  | Some b0, Some b1, Some b2, Some b3 =>
      Some (b0 + 2 ^ 8 * b1 + 2 ^ 16 * b2 + 2 ^ 24 * b3)
  | _, _, _, _ => None
  end.

Definition EBUSY : Z := 16.

(** [atomic_add_unless(v, a, u)]: adds [a] to the counter unless it holds
    [u]; the flag is nonzero when the addition was done.  [atomic_t]
    arithmetic wraps. *)
Definition atomic_add_unless (v a u : Z) : Z * Z :=
  if v =? u then (0, v) else (1, CInt.to_int (v + a)).

Definition atomic_dec (v : Z) : Z := CInt.to_int (v - 1).

(** [device_open] and [device_release] on the counter [is_open]: the
    returned status and the new counter. *)
Definition device_open (is_open : Z) : Z * Z :=
  let '(done, v) := atomic_add_unless is_open 1 1 in
  if done =? 0 then (- EBUSY, v) else (0, v).

Definition device_release (is_open : Z) : Z * Z :=
  (0, atomic_dec is_open).

(** The calls the kernel makes on the device: an [open] may come at any
    time; [release] comes once for a file whose [open] returned 0, so a
    [Release] with no file held does not occur and leaves the state
    alone. *)
Inductive file_op : Type :=
| Open
| Release.

Record session : Type := mk_session {
  is_open : Z;
  held : nat
}.

Definition session_step (s : session) (op : file_op) : session :=
  match op with
  | Open =>
      let '(rc, v) := device_open (is_open s) in
      mk_session v (if rc =? 0 then S (held s) else held s)
  | Release =>
      match held s with
      | O => s
      | S h => mk_session (snd (device_release (is_open s))) h
      end
  end.

(** The module starts with [is_open = ATOMIC_INIT(0)] and no file held. *)
Definition session_run (ops : list file_op) : session :=
  fold_left session_step ops (mk_session 0 0).

(** Eighty writable bytes from address 0x2000 on. *)
Definition large_buffer : umem :=
  fun a => if (0x2000 <=? a) && (a <? 0x2050) then Some 0 else None.

End Arm.

(** * Properties *)

(** ** Integer conversions *)

Lemma to_uint32_minus_one : CInt.to_uint32 (-1) = 0xffffffff.
Proof. reflexivity. Qed.

Lemma to_uint32_lnot_ff : CInt.to_uint32 (Z.lnot 0xff) = 0xffffff00.
Proof. reflexivity. Qed.


Lemma to_uint32_small (z : Z) : CInt.in_uint32 z -> CInt.to_uint32 z = z.
Proof.
  unfold CInt.in_uint32, CInt.to_uint32, CInt.UINT32_MAX; intros H.
  apply Z.mod_small; lia.
Qed.

(** Adding a multiple of 2^32 is invisible after conversion. *)
Lemma to_uint32_wrap (z k : Z) :
  CInt.in_uint32 z -> CInt.to_uint32 (z + k * 2 ^ 32) = z.
Proof.
  intros H. unfold CInt.to_uint32.
  rewrite Z_mod_plus_full. now apply to_uint32_small.
Qed.

Lemma to_int_low (z : Z) : 0 <= z <= CInt.INT_MAX -> CInt.to_int z = z.
Proof.
  unfold CInt.INT_MAX, CInt.to_int; intros H.
  rewrite Z.mod_small by lia.
  destruct (Z.ltb_spec z (2 ^ 31)); lia.
Qed.

Lemma to_int_high (z : Z) :
  CInt.INT_MAX < z <= CInt.UINT32_MAX -> CInt.to_int z = z - 2 ^ 32.
Proof.
  unfold CInt.INT_MAX, CInt.UINT32_MAX, CInt.to_int; intros H.
  rewrite Z.mod_small by lia.
  destruct (Z.ltb_spec z (2 ^ 31)); lia.
Qed.

(** ** The outcome monad *)

Lemma bind_ret_l {A B : Type} (a : A) (k : A -> outcome B) :
  bind (ret a) k = k a.
Proof. unfold ret, bind. destruct (k a); reflexivity. Qed.

Lemma bind_assoc {A B C : Type} (m : outcome A)
    (k : A -> outcome B) (h : B -> outcome C) :
  bind (bind m k) h = bind m (fun a => bind (k a) h).
Proof.
  destruct m as [a t | t | t]; simpl; try reflexivity.
  destruct (k a) as [b t' | t' | t']; simpl; try reflexivity.
  destruct (h b); simpl; now rewrite app_assoc.
Qed.

(** A run that only emits [t] and then goes on as [o]. *)
Lemma bind_emit_emit {B : Type} (t t' : trace) (k : unit -> outcome B) :
  bind (Returned tt t) (fun _ => bind (Returned tt t') k)
  = bind (Returned tt (t ++ t')) k.
Proof. simpl. destruct (k tt); simpl; now rewrite app_assoc. Qed.

Lemma trace_of_emit {B : Type} (t : trace) (o : outcome B) :
  trace_of (bind (Returned tt t) (fun _ => o)) = t ++ trace_of o.
Proof. destruct o; reflexivity. Qed.

Lemma leaves_of_app (t t' : trace) :
  leaves_of (t ++ t') = leaves_of t ++ leaves_of t'.
Proof.
  induction t as [| e t IH]; simpl; [reflexivity |].
  destruct e; simpl; now rewrite IH.
Qed.

Lemma leaves_of_EvLeaf (ls : list Z) : leaves_of (map EvLeaf ls) = ls.
Proof. induction ls as [| l ls IH]; simpl; [reflexivity | now rewrite IH]. Qed.

Lemma rows_of_EvLeaf (ls : list Z) : rows_of (map EvLeaf ls) = [].
Proof. induction ls as [| l ls IH]; simpl; [reflexivity | exact IH]. Qed.

Lemma queries_of_EvLeaf (ls : list Z) : queries_of (map EvLeaf ls) = [].
Proof. induction ls as [| l ls IH]; simpl; [reflexivity | exact IH]. Qed.

(** ** cpuid_leaf: the loop condition *)

(** No [uint32_t] exceeds [(unsigned) -1]: the loop condition of
    [cpuid_leaf] is false at every subleaf. *)
Lemma subleaf_guard_false (subleaf : Z) :
  CInt.in_uint32 subleaf -> subleaf_guard subleaf = false.
Proof.
  unfold CInt.in_uint32, CInt.UINT32_MAX, subleaf_guard; intros H.
  rewrite to_uint32_minus_one.
  destruct (Z.gtb_spec subleaf 0xffffffff); [lia | reflexivity].
Qed.

Lemma cpuid_leaf_loop_exit (fuel : nat) (hw : primitive)
    (leaf subleaf : Z) (last_subleaf : cpuid_result) :
  CInt.in_uint32 subleaf ->
  cpuid_leaf_loop (S fuel) hw leaf subleaf last_subleaf = ret tt.
Proof.
  intros H. simpl. now rewrite (subleaf_guard_false subleaf H).
Qed.

(** With any fuel at all [cpuid_leaf] returns, and its trace is the call
    itself. *)
Lemma cpuid_leaf_returns (fuel : nat) (hw : primitive) (leaf : Z) :
  cpuid_leaf (S fuel) hw leaf = Returned tt [EvLeaf leaf].
Proof.
  unfold cpuid_leaf.
  rewrite cpuid_leaf_loop_exit by (unfold CInt.in_uint32, CInt.UINT32_MAX; lia).
  reflexivity.
Qed.

(** ** cpuid_leaf: the switch of the loop body *)

Lemma lor_zero_iff (a b : Z) : CInt.lor a b = 0 <-> a = 0 /\ b = 0.
Proof.
  unfold CInt.lor, CInt.truth.
  destruct (Z.eqb_spec a 0), (Z.eqb_spec b 0); simpl; lia.
Qed.

(** A [uint32_t] is determined by its four bytes. *)
Lemma uint32_of_bytes (w : Z) :
  CInt.in_uint32 w ->
  w = w mod 256 + 2 ^ 8 * ((w / 2 ^ 8) mod 256)
      + 2 ^ 16 * ((w / 2 ^ 16) mod 256) + 2 ^ 24 * ((w / 2 ^ 24) mod 256).
Proof.
  unfold CInt.in_uint32, CInt.UINT32_MAX; intros H.
  assert (E1 := Z.div_mod w 256 ltac:(lia)).
  assert (E2 := Z.div_mod (w / 2 ^ 8) 256 ltac:(lia)).
  assert (E3 := Z.div_mod (w / 2 ^ 16) 256 ltac:(lia)).
  assert (D2 : w / 2 ^ 8 / 256 = w / 2 ^ 16)
    by (rewrite Z.div_div by lia; reflexivity).
  assert (D3 : w / 2 ^ 16 / 256 = w / 2 ^ 24)
    by (rewrite Z.div_div by lia; reflexivity).
  assert (S3 : (w / 2 ^ 24) mod 256 = w / 2 ^ 24).
  { apply Z.mod_small. split; [apply Z.div_pos; lia |].
    apply Z.div_lt_upper_bound; lia. }
  change (2 ^ 8) with 256 in *. lia.
Qed.

Lemma bytes_of_uint32_inj (a b : Z) :
  CInt.in_uint32 a -> CInt.in_uint32 b ->
  bytes_of_uint32 a = bytes_of_uint32 b -> a = b.
Proof.
  intros Ha Hb E.
  assert (E0 : a mod 256 = b mod 256)
    by exact (f_equal (fun l => nth 0 l 0) E).
  assert (E1 : (a / 2 ^ 8) mod 256 = (b / 2 ^ 8) mod 256)
    by exact (f_equal (fun l => nth 1 l 0) E).
  assert (E2 : (a / 2 ^ 16) mod 256 = (b / 2 ^ 16) mod 256)
    by exact (f_equal (fun l => nth 2 l 0) E).
  assert (E3 : (a / 2 ^ 24) mod 256 = (b / 2 ^ 24) mod 256)
    by exact (f_equal (fun l => nth 3 l 0) E).
  assert (Wa := uint32_of_bytes a Ha). assert (Wb := uint32_of_bytes b Hb).
  lia.
Qed.

Lemma memcmp_zero_iff (a b : list Z) :
  length a = length b -> (memcmp a b = 0 <-> a = b).
Proof.
  revert b; induction a as [| x a IH]; intros [| y b] L;
    simpl in *; try discriminate; [tauto |].
  injection L as L.
  destruct (Z.eqb_spec x y) as [-> | N].
  - rewrite (IH b L). split; [now intros -> | now intros [= ->]].
  - split; [lia | intros [= E _]; contradiction].
Qed.

(** [memcmp] of two results is 0 exactly when the four registers agree. *)
Lemma memcmp_result_zero_iff (a b : cpuid_result) :
  well_typed a -> well_typed b ->
  (memcmp (bytes_of_result a) (bytes_of_result b) = 0 <-> a = b).
Proof.
  intros (Ha1 & Ha2 & Ha3 & Ha4) (Hb1 & Hb2 & Hb3 & Hb4).
  rewrite memcmp_zero_iff by reflexivity.
  split; [| now intros ->].
  destruct a as [a1 a2 a3 a4], b as [b1 b2 b3 b4]; simpl in *.
  unfold bytes_of_result; simpl eax; simpl ebx; simpl ecx; simpl edx.
  intros E.
  assert (E1 : bytes_of_uint32 a1 = bytes_of_uint32 b1)
    by exact (f_equal (firstn 4) E).
  assert (E2 : bytes_of_uint32 a2 = bytes_of_uint32 b2)
    by exact (f_equal (fun l => firstn 4 (skipn 4 l)) E).
  assert (E3 : bytes_of_uint32 a3 = bytes_of_uint32 b3)
    by exact (f_equal (fun l => firstn 4 (skipn 8 l)) E).
  assert (E4 : bytes_of_uint32 a4 = bytes_of_uint32 b4)
    by exact (f_equal (fun l => firstn 4 (skipn 12 l)) E).
  f_equal; now apply bytes_of_uint32_inj.
Qed.

(** Bits 8..15 of a word, as the mask [0xff00] selects them. *)
Lemma land_ff00 (x : Z) :
  Z.land x 0xff00 = Z.shiftl ((x / 2 ^ 8) mod 2 ^ 8) 8.
Proof.
  rewrite <- Z.shiftr_div_pow2, <- Z.land_ones by lia.
  change 0xff00 with (Z.shiftl (Z.ones 8) 8).
  apply Z.bits_inj'; intros n Hn.
  rewrite Z.land_spec, !Z.shiftl_spec by lia.
  destruct (Z.ltb_spec n 8) as [Lt | Ge].
  - rewrite !(Z.testbit_neg_r _ (n - 8)) by lia. now rewrite andb_false_r.
  - rewrite Z.land_spec, Z.shiftr_spec by lia.
    now replace (n - 8 + 8) with n by lia.
Qed.

Lemma land_ff00_zero_iff (x : Z) :
  Z.land x 0xff00 = 0 <-> (x / 2 ^ 8) mod 2 ^ 8 = 0.
Proof. rewrite land_ff00. apply Z.shiftl_eq_0_iff. lia. Qed.


Lemma stop_condition_leaf14 (subleaf : Z) (r last : cpuid_result) :
  stop_condition 0x14 subleaf r last = (subleaf >? eax r).
Proof. reflexivity. Qed.

(** X2.  Leaf 0xb: stop when EAX = 0, EBX = 0 and ECX has nothing above its low
    byte. *)
Lemma stop_condition_leafb (subleaf : Z) (r last : cpuid_result) :
  stop_condition 0xb subleaf r last = true
  <-> eax r = 0 /\ ebx r = 0 /\ Z.land (ecx r) 0xffffff00 = 0.
Proof.
  unfold stop_condition; simpl (_ =? _).
  cbv iota. rewrite to_uint32_lnot_ff, Z.eqb_eq, !lor_zero_iff. tauto.
Qed.

(** X3.  Leaf 0x1f: stop when the domain type, bits 8..15 of ECX, is zero. *)
Lemma stop_condition_leaf1f (subleaf : Z) (r last : cpuid_result) :
  stop_condition 0x1f subleaf r last = true
  <-> (ecx r / 2 ^ 8) mod 2 ^ 8 = 0.
Proof.
  unfold stop_condition; simpl (_ =? _).
  cbv iota. now rewrite Z.eqb_eq, land_ff00_zero_iff.
Qed.

(** X4.  Any other leaf: stop on an all-zero result or on a result equal to
    [last_subleaf]. *)
Lemma stop_condition_default (leaf subleaf : Z) (r last : cpuid_result) :
  leaf <> 0x7 -> leaf <> 0xb -> leaf <> 0x14 -> leaf <> 0x1f ->
  well_typed r -> well_typed last ->
  (stop_condition leaf subleaf r last = true
   <-> r = zero_result \/ last = r).
Proof.
  intros N1 N2 N3 N4 Hr Hl. unfold stop_condition.
  destruct (Z.eqb_spec leaf 0x7); [contradiction |].
  destruct (Z.eqb_spec leaf 0xb); [contradiction |].
  destruct (Z.eqb_spec leaf 0x14); [contradiction |].
  destruct (Z.eqb_spec leaf 0x1f); [contradiction |].
  rewrite orb_true_iff, !Z.eqb_eq, !lor_zero_iff,
    (memcmp_result_zero_iff last r Hl Hr).
  destruct r as [a b c d]; unfold zero_result; simpl.
  split; (intros [H | H]; [left | now right]).
  - destruct H as [[[-> ->] ->] ->]; reflexivity.
  - injection H as -> -> -> ->. auto.
Qed.

(** ** cpuid_leaf on scripted primitives *)

(** C1.  Leaf 0x7 scripted with EAX = 2 at every subleaf and subleaves told
    apart by EBX: the switch says continue at subleaves 0, 1, 2 and stop at
    3, so three rows are due; but the loop condition [subleaf > -1] is
    already false at subleaf 0, and [cpuid_leaf] returns having issued no
    query and printed no row. *)
Theorem cpuid_leaf_leaf7_prints_nothing (fuel : nat) :
  stop_condition 0x7 0 (hw_leaf7 0x7 0) zero_result = false /\
  stop_condition 0x7 1 (hw_leaf7 0x7 1) (hw_leaf7 0x7 0) = false /\
  stop_condition 0x7 2 (hw_leaf7 0x7 2) (hw_leaf7 0x7 1) = false /\
  stop_condition 0x7 3 (hw_leaf7 0x7 3) (hw_leaf7 0x7 2) = true /\
  subleaf_guard 0 = false /\
  cpuid_leaf (S fuel) hw_leaf7 0x7 = Returned tt [EvLeaf 0x7] /\
  queries_of (trace_of (cpuid_leaf (S fuel) hw_leaf7 0x7)) = [] /\
  rows_of (trace_of (cpuid_leaf (S fuel) hw_leaf7 0x7)) = [].
Proof.
  rewrite cpuid_leaf_returns. repeat split.
Qed.

(** C2.  A leaf outside the table (0x4) whose subleaf 2 repeats subleaf 1:
    the switch says continue at subleaves 0 and 1 and stop at 2, so rows 0
    and 1 are due; [cpuid_leaf] issues no query and prints no row. *)
Theorem cpuid_leaf_default_prints_nothing (fuel : nat) :
  stop_condition 0x4 0 (hw_repeat 0x4 0) zero_result = false /\
  stop_condition 0x4 1 (hw_repeat 0x4 1) (hw_repeat 0x4 0) = false /\
  stop_condition 0x4 2 (hw_repeat 0x4 2) (hw_repeat 0x4 1) = true /\
  subleaf_guard 0 = false /\
  cpuid_leaf (S fuel) hw_repeat 0x4 = Returned tt [EvLeaf 0x4] /\
  queries_of (trace_of (cpuid_leaf (S fuel) hw_repeat 0x4)) = [] /\
  rows_of (trace_of (cpuid_leaf (S fuel) hw_repeat 0x4)) = [].
Proof.
  rewrite cpuid_leaf_returns. repeat split.
Qed.

(** C5.  Leaf 0xb scripted with level types 1 and 2 at subleaves 0 and 1
    and an invalid level at subleaf 2: the switch says continue, continue,
    stop, so two rows are due; [cpuid_leaf] issues no query and prints no
    row. *)
Theorem cpuid_leaf_leafb_prints_nothing (fuel : nat) :
  stop_condition 0xb 0 (hw_leafb 0xb 0) zero_result = false /\
  stop_condition 0xb 1 (hw_leafb 0xb 1) (hw_leafb 0xb 0) = false /\
  stop_condition 0xb 2 (hw_leafb 0xb 2) (hw_leafb 0xb 1) = true /\
  subleaf_guard 0 = false /\
  cpuid_leaf (S fuel) hw_leafb 0xb = Returned tt [EvLeaf 0xb] /\
  queries_of (trace_of (cpuid_leaf (S fuel) hw_leafb 0xb)) = [] /\
  rows_of (trace_of (cpuid_leaf (S fuel) hw_leafb 0xb)) = [].
Proof.
  rewrite cpuid_leaf_returns. repeat split.
Qed.

(** C6.  Leaf 0x1f scripted with domain types 1 and 2 at subleaves 0 and 1
    and domain type 0 at subleaf 2: the switch says continue, continue,
    stop, so two rows are due; [cpuid_leaf] issues no query and prints no
    row. *)
Theorem cpuid_leaf_leaf1f_prints_nothing (fuel : nat) :
  stop_condition 0x1f 0 (hw_leaf1f 0x1f 0) zero_result = false /\
  stop_condition 0x1f 1 (hw_leaf1f 0x1f 1) (hw_leaf1f 0x1f 0) = false /\
  stop_condition 0x1f 2 (hw_leaf1f 0x1f 2) (hw_leaf1f 0x1f 1) = true /\
  subleaf_guard 0 = false /\
  cpuid_leaf (S fuel) hw_leaf1f 0x1f = Returned tt [EvLeaf 0x1f] /\
  queries_of (trace_of (cpuid_leaf (S fuel) hw_leaf1f 0x1f)) = [] /\
  rows_of (trace_of (cpuid_leaf (S fuel) hw_leaf1f 0x1f)) = [].
Proof.
  rewrite cpuid_leaf_returns. repeat split.
Qed.

(** ** cpuid_leaf: termination *)






(** ** main: the choice of mode *)

Lemma option_value_some (v : Z) :
  0 <= v < 0xffffffff ->
  option_value (Some v) = v /\ (option_value (Some v) =? 0xffffffff) = false.
Proof.
  intros H. unfold option_value.
  rewrite to_uint32_small by (unfold CInt.in_uint32, CInt.UINT32_MAX; lia).
  split; [reflexivity |]. apply Z.eqb_neq. lia.
Qed.

(** Whatever the mode did, [main] then returns 0. *)
Lemma bind_ret_zero_status (o : outcome unit) (v : Z) (t : trace) :
  bind o (fun _ => ret 0) = Returned v t -> v = 0.
Proof.
  destruct o as [[] t0 | t0 | t0]; simpl; intros E; [| discriminate ..].
  now injection E as <- _.
Qed.

(** C3, as stated, fails: an explicit leaf [0xffffffff] is the value the
    code keeps for "no leaf given", so with [-l ffffffff -s 0] the full
    dump runs; the selector (0xffffffff, 0) is never queried and no row is
    printed for it. *)
Lemma main_explicit_ffffffff_runs_dump :
  main 3 hw_two_levels (Some 0xffffffff) (Some 0)
  = Returned 0 [EvQuery 0 0; EvLeaf 0; EvLeaf 1;
                EvQuery 0x80000000 0; EvLeaf 0x80000000; EvLeaf 0x80000001] /\
  main 3 hw_two_levels (Some 0xffffffff) (Some 0)
  = bind (dump_cpuid 3 hw_two_levels) (fun _ => ret 0) /\
  ~ In (0xffffffff, 0)
       (queries_of (trace_of (main 3 hw_two_levels (Some 0xffffffff) (Some 0)))) /\
  rows_of (trace_of (main 3 hw_two_levels (Some 0xffffffff) (Some 0))) = [].
Proof.
  repeat split. simpl. intros [E | [E | []]]; discriminate.
Qed.

(** C3, amended.  For every explicit leaf and subleaf other than
    [0xffffffff], [main] issues the one query (leaf, subleaf) and prints
    its row whatever the answer, with any fuel and no look at the stop
    conditions.  An explicit [0xffffffff] counts as an option not given.
    Whatever the two options, [main] never returns a status other than
    0. *)
Theorem main_explicit_selector (fuel : nat) (hw : primitive) (leaf subleaf : Z) :
  0 <= leaf < 0xffffffff ->
  0 <= subleaf < 0xffffffff ->
  main fuel hw (Some leaf) (Some subleaf)
  = Returned 0 [EvQuery leaf subleaf; EvRow leaf subleaf (hw leaf subleaf)]
  /\ (forall opt_subleaf : option Z,
        main fuel hw (Some 0xffffffff) opt_subleaf = main fuel hw None opt_subleaf)
  /\ (forall opt_leaf : option Z,
        main fuel hw opt_leaf (Some 0xffffffff) = main fuel hw opt_leaf None)
  /\ (forall (opt_leaf opt_subleaf : option Z) (v : Z) (t : trace),
        main fuel hw opt_leaf opt_subleaf = Returned v t -> v = 0).
Proof.
  intros Hl Hs. repeat split.
  - unfold main.
    destruct (option_value_some leaf Hl) as [-> ->].
    destruct (option_value_some subleaf Hs) as [-> ->].
    reflexivity.
  - intros opt_leaf opt_subleaf v t. unfold main. apply bind_ret_zero_status.
Qed.

Lemma main_explicit_selector_witness :
  main 0 hw_zero (Some 0x7) (Some 0x5)
  = Returned 0 [EvQuery 0x7 0x5; EvRow 0x7 0x5 zero_result].
Proof.
  apply (main_explicit_selector 0 hw_zero 0x7 0x5); lia.
Defined.

(** C10.  With a subleaf given and no leaf, [main] runs the full dump
    exactly as with no option at all: the outcome does not depend on the
    subleaf given. *)
Theorem main_subleaf_without_leaf (fuel : nat) (hw : primitive) (subleaf : Z) :
  main fuel hw None (Some subleaf) = bind (dump_cpuid fuel hw) (fun _ => ret 0)
  /\ main fuel hw None (Some subleaf) = main fuel hw None None.
Proof. split; reflexivity. Qed.

(** ** dump_cpuid *)

(** C8.  [dump_cpuid] is the level at base 0 followed by the level at base
    0x80000000: when both return, its trace is the first trace followed by
    the second; when the first does not return, the second is not run. *)
Theorem dump_cpuid_two_levels (fuel : nat) (hw : primitive) :
  dump_cpuid fuel hw =
  match cpuid_level fuel hw 0 with
  | Returned _ t0 =>
      match cpuid_level fuel hw 0x80000000 with
      | Returned _ t1 => Returned tt (t0 ++ t1)
      | Undefined t1 => Undefined (t0 ++ t1)
      | OutOfFuel t1 => OutOfFuel (t0 ++ t1)
      end
  | Undefined t0 => Undefined t0
  | OutOfFuel t0 => OutOfFuel t0
  end.
Proof.
  unfold dump_cpuid, bind.
  destruct (cpuid_level fuel hw 0) as [[] t0 | t0 | t0]; try reflexivity.
  destruct (cpuid_level fuel hw 0x80000000) as [[] t1 | t1 | t1]; reflexivity.
Qed.

(** ** cpuid_level *)

Lemma cpuid_leaf_returns_pos (fuel : nat) (hw : primitive) (leaf : Z) :
  (0 < fuel)%nat -> cpuid_leaf fuel hw leaf = Returned tt [EvLeaf leaf].
Proof.
  destruct fuel as [| fuel]; [lia | intros _; apply cpuid_leaf_returns].
Qed.

Lemma cpuid_level_loop_S (fuel leaf_fuel : nat) (hw : primitive)
    (leaf max_leaf : Z) :
  cpuid_level_loop (S fuel) leaf_fuel hw leaf max_leaf =
  if CInt.to_uint32 leaf <=? max_leaf then
    cpuid_leaf leaf_fuel hw (CInt.to_uint32 leaf) ;;
    if leaf =? CInt.INT_MAX then Undefined []
    else cpuid_level_loop fuel leaf_fuel hw (leaf + 1) max_leaf
  else ret tt.
Proof. reflexivity. Qed.

(** [n] iterations in a row: as long as the condition holds and [++leaf]
    does not overflow, each iteration calls [cpuid_leaf] on the converted
    counter and the loop goes on from [leaf + n]. *)
Lemma cpuid_level_loop_run (n fuel leaf_fuel : nat) (hw : primitive)
    (leaf max_leaf : Z) :
  (0 < leaf_fuel)%nat ->
  (forall i, 0 <= i < Z.of_nat n ->
     CInt.to_uint32 (leaf + i) <= max_leaf /\ leaf + i <> CInt.INT_MAX) ->
  cpuid_level_loop (n + fuel) leaf_fuel hw leaf max_leaf =
  bind (Returned tt (map EvLeaf (map CInt.to_uint32 (leaf_range leaf n))))
       (fun _ => cpuid_level_loop fuel leaf_fuel hw (leaf + Z.of_nat n) max_leaf).
Proof.
  intros Hf. revert leaf.
  induction n as [| n IH]; intros leaf H.
  - change (leaf_range leaf 0) with (@nil Z). simpl map.
    replace (leaf + Z.of_nat 0) with leaf by lia.
    change (Returned tt (@nil event)) with (ret tt).
    now rewrite bind_ret_l.
  - change (S n + fuel)%nat with (S (n + fuel)).
    rewrite cpuid_level_loop_S.
    destruct (H 0 ltac:(lia)) as [Hle Hne].
    rewrite Z.add_0_r in Hle, Hne.
    destruct (Z.leb_spec (CInt.to_uint32 leaf) max_leaf); [| lia].
    destruct (Z.eqb_spec leaf CInt.INT_MAX); [contradiction |].
    rewrite (cpuid_leaf_returns_pos leaf_fuel hw _ Hf).
    rewrite IH.
    + rewrite bind_emit_emit.
      replace (leaf + 1 + Z.of_nat n) with (leaf + Z.of_nat (S n)) by lia.
      reflexivity.
    + intros i Hi. replace (leaf + 1 + i) with (leaf + (i + 1)) by lia.
      apply H. lia.
Qed.

(** The loop from its first iteration to the one that fails the
    condition. *)
Lemma cpuid_level_loop_complete (n fuel leaf_fuel : nat) (hw : primitive)
    (leaf max_leaf : Z) :
  (0 < leaf_fuel)%nat -> (n < fuel)%nat ->
  (forall i, 0 <= i < Z.of_nat n ->
     CInt.to_uint32 (leaf + i) <= max_leaf /\ leaf + i <> CInt.INT_MAX) ->
  max_leaf < CInt.to_uint32 (leaf + Z.of_nat n) ->
  cpuid_level_loop fuel leaf_fuel hw leaf max_leaf =
  Returned tt (map EvLeaf (map CInt.to_uint32 (leaf_range leaf n))).
Proof.
  intros Hf Hn H Hexit.
  replace fuel with (n + S (fuel - n - 1))%nat by lia.
  rewrite (cpuid_level_loop_run n _ leaf_fuel hw leaf max_leaf Hf H).
  rewrite cpuid_level_loop_S.
  destruct (Z.leb_spec (CInt.to_uint32 (leaf + Z.of_nat n)) max_leaf); [lia |].
  simpl. now rewrite app_nil_r.
Qed.

Lemma map_to_uint32_leaf_range (n : nat) (a b : Z) :
  (forall i, 0 <= i < Z.of_nat n -> CInt.to_uint32 (a + i) = b + i) ->
  map CInt.to_uint32 (leaf_range a n) = leaf_range b n.
Proof.
  revert a b; induction n as [| n IH]; intros a b H; [reflexivity |].
  change (leaf_range a (S n)) with (a :: leaf_range (a + 1) n).
  change (leaf_range b (S n)) with (b :: leaf_range (b + 1) n).
  simpl map. f_equal.
  - generalize (H 0 ltac:(lia)). now rewrite !Z.add_0_r.
  - apply IH. intros i Hi.
    replace (a + 1 + i) with (a + (i + 1)) by lia.
    replace (b + 1 + i) with (b + (i + 1)) by lia.
    apply H. lia.
Qed.

Lemma flat_map_cpuid_leaf (fuel : nat) (hw : primitive) (leaves : list Z) :
  (0 < fuel)%nat ->
  flat_map (fun leaf => trace_of (cpuid_leaf fuel hw leaf)) leaves
  = map EvLeaf leaves.
Proof.
  intros Hf. induction leaves as [| l ls IH]; [reflexivity |].
  simpl. now rewrite IH, (cpuid_leaf_returns_pos fuel hw l Hf).
Qed.

(** The counter of [cpuid_level] seen as a [uint32_t], [i] steps after its
    start at [(int) level]. *)
Lemma to_uint32_to_int_add (level i : Z) :
  CInt.in_uint32 level -> CInt.in_uint32 (level + i) ->
  CInt.to_uint32 (CInt.to_int level + i) = level + i.
Proof.
  intros Hl Hi. unfold CInt.in_uint32, CInt.UINT32_MAX in Hl.
  destruct (Z.le_gt_cases level CInt.INT_MAX) as [Lo | Hi'].
  - rewrite to_int_low by lia. now apply to_uint32_small.
  - rewrite to_int_high by (unfold CInt.UINT32_MAX; lia).
    replace (level - 2 ^ 32 + i) with (level + i + (-1) * 2 ^ 32) by lia.
    now apply to_uint32_wrap.
Qed.

(** [cpuid_level] is its one query followed by the loop. *)
Lemma cpuid_level_unfold (fuel : nat) (hw : primitive) (level : Z) :
  cpuid_level fuel hw level =
  bind (Returned tt [EvQuery level 0])
       (fun _ => cpuid_level_loop fuel fuel hw (CInt.to_int level)
                   (eax (hw level 0))).
Proof. reflexivity. Qed.

(** At the extended base with maximum leaf [0xffffffff]: after the 2^31
    leaves from the base to [0xffffffff] the counter is 0 and the loop goes
    on. *)
Lemma cpuid_level_wrap_trace (n : nat) :
  Z.of_nat n = 2 ^ 31 ->
  trace_of (cpuid_level (n + 2) hw_max_leaf 0x80000000)
  = EvQuery 0x80000000 0
    :: map EvLeaf (leaf_range 0x80000000 n) ++ [EvLeaf 0; EvLeaf 1].
Proof.
  intros Hn.
  rewrite cpuid_level_unfold.
  change (eax (hw_max_leaf 0x80000000 0)) with 0xffffffff.
  change (CInt.to_int 0x80000000) with (- 2 ^ 31).
  assert (R : forall i, 0 <= i < Z.of_nat n ->
                CInt.to_uint32 (- 2 ^ 31 + i) = 0x80000000 + i).
  { intros i Hi.
    replace (- 2 ^ 31 + i) with (0x80000000 + i + (-1) * 2 ^ 32) by lia.
    apply to_uint32_wrap. unfold CInt.in_uint32, CInt.UINT32_MAX. lia. }
  rewrite (cpuid_level_loop_run n 2 (n + 2) hw_max_leaf (- 2 ^ 31) 0xffffffff)
    by (try lia; intros i Hi; rewrite (R i Hi); unfold CInt.INT_MAX; lia).
  rewrite (map_to_uint32_leaf_range n (- 2 ^ 31) 0x80000000 R).
  replace (- 2 ^ 31 + Z.of_nat n) with 0 by lia.
  rewrite !cpuid_level_loop_S.
  rewrite !(cpuid_leaf_returns_pos (n + 2)) by lia.
  reflexivity.
Qed.

Lemma In_leaves_of_wrap (n : nat) (base : Z) :
  In 0 (leaves_of (EvQuery base 0
                   :: map EvLeaf (leaf_range base n) ++ [EvLeaf 0; EvLeaf 1])).
Proof.
  simpl leaves_of. rewrite leaves_of_app, in_app_iff. right. now left.
Qed.

(** C7, as stated, fails: at the extended base with a reported maximum
    leaf of [0xffffffff] the condition [leaf <= max_leaf] is never false;
    after leaf 0xffffffff the counter is 0 and [cpuid_leaf] is called for
    leaves 0, 1, ... below the base. *)
Lemma cpuid_level_wraps_below_base :
  trace_of (cpuid_level (Z.to_nat (2 ^ 31) + 2) hw_max_leaf 0x80000000)
  = EvQuery 0x80000000 0
    :: map EvLeaf (leaf_range 0x80000000 (Z.to_nat (2 ^ 31)))
       ++ [EvLeaf 0; EvLeaf 1]
  /\ In 0 (leaves_of
             (trace_of (cpuid_level (Z.to_nat (2 ^ 31) + 2) hw_max_leaf 0x80000000)))
  /\ 0 < 0x80000000.
Proof.
  assert (H : Z.of_nat (Z.to_nat (2 ^ 31)) = 2 ^ 31) by (apply Z2Nat.id; lia).
  split; [exact (cpuid_level_wrap_trace _ H) |].
  split; [| lia].
  rewrite (cpuid_level_wrap_trace _ H). apply In_leaves_of_wrap.
Qed.

(** C7, amended.  When the reported maximum leaf is not [0xffffffff] and
    the leaves from the base to the maximum do not include [0x7fffffff],
    [cpuid_level] queries (base, 0) and then calls [cpuid_leaf] for exactly
    the leaves base, base + 1, ..., max_leaf in this order, the trace being
    the query followed by the traces of these calls; when the maximum is
    below the base there is no call and no row, and the level returns. *)
Theorem cpuid_level_in_range (fuel : nat) (hw : primitive) (base : Z) :
  0 <= base <= 0xffffffff ->
  0 <= eax (hw base 0) < 0xffffffff ->
  ~ (base <= 0x7fffffff <= eax (hw base 0)) ->
  (Z.to_nat (eax (hw base 0) - base + 1)%Z < fuel)%nat ->
  cpuid_level fuel hw base
  = Returned tt
      (EvQuery base 0
       :: flat_map (fun leaf => trace_of (cpuid_leaf fuel hw leaf))
            (leaf_range base (Z.to_nat (eax (hw base 0) - base + 1))))
  /\ leaves_of (trace_of (cpuid_level fuel hw base))
     = leaf_range base (Z.to_nat (eax (hw base 0) - base + 1))
  /\ (eax (hw base 0) < base ->
      cpuid_level fuel hw base = Returned tt [EvQuery base 0]).
Proof.
  intros Hb Hm Hmid Hfuel.
  set (m := eax (hw base 0)) in *.
  set (n := Z.to_nat (m - base + 1)).
  assert (Hf : (0 < fuel)%nat) by lia.
  assert (R : forall i, 0 <= i <= Z.of_nat n ->
                CInt.to_uint32 (CInt.to_int base + i) = base + i).
  { intros i Hi. apply to_uint32_to_int_add;
      unfold CInt.in_uint32, CInt.UINT32_MAX; lia. }
  assert (E : cpuid_level fuel hw base
              = Returned tt (EvQuery base 0 :: map EvLeaf (leaf_range base n))).
  { rewrite cpuid_level_unfold. fold m.
    rewrite (cpuid_level_loop_complete n fuel fuel hw (CInt.to_int base) m).
    - rewrite (map_to_uint32_leaf_range n (CInt.to_int base) base)
        by (intros i Hi; apply R; lia).
      reflexivity.
    - exact Hf.
    - lia.
    - intros i Hi. rewrite R by lia. split; [lia |].
      destruct (Z.le_gt_cases base CInt.INT_MAX) as [Lo | Hi'].
      + rewrite to_int_low by lia. unfold CInt.INT_MAX in *. lia.
      + rewrite to_int_high by (unfold CInt.UINT32_MAX; lia).
        unfold CInt.INT_MAX in *. lia.
    - rewrite R by lia. lia. }
  split; [| split].
  - rewrite E, (flat_map_cpuid_leaf fuel hw _ Hf). reflexivity.
  - rewrite E. simpl. apply leaves_of_EvLeaf.
  - intros Hlt. rewrite E. replace n with 0%nat by lia. reflexivity.
Qed.

Lemma cpuid_level_in_range_witness :
  cpuid_level 3 hw_two_levels 0x80000000
  = Returned tt
      (EvQuery 0x80000000 0
       :: flat_map (fun leaf => trace_of (cpuid_leaf 3 hw_two_levels leaf))
            (leaf_range 0x80000000
               (Z.to_nat (eax (hw_two_levels 0x80000000 0) - 0x80000000 + 1))))
  /\ leaves_of (trace_of (cpuid_level 3 hw_two_levels 0x80000000))
     = leaf_range 0x80000000
         (Z.to_nat (eax (hw_two_levels 0x80000000 0) - 0x80000000 + 1))
  /\ (eax (hw_two_levels 0x80000000 0) < 0x80000000 ->
      cpuid_level 3 hw_two_levels 0x80000000
      = Returned tt [EvQuery 0x80000000 0]).
Proof.
  apply (cpuid_level_in_range 3 hw_two_levels 0x80000000); simpl; lia.
Defined.

(** The full dump of the two-level script visits leaves 0, 1, 0x80000000
    and 0x80000001 in this order, after one query per level base. *)
Example full_dump_script_leaves :
  leaves_of (trace_of (dump_cpuid 3 hw_two_levels))
  = [0; 1; 0x80000000; 0x80000001]
  /\ queries_of (trace_of (dump_cpuid 3 hw_two_levels))
     = [(0, 0); (0x80000000, 0)].
Proof. split; reflexivity. Qed.

(** ** device_read *)

(** The chain of cases ends in [-EFAULT], in [count * 4] or in the
    overflow of [count * 4]. *)
Lemma device_read_cases_result (n : nat) (cp15 : Arm.coprocessor)
    (buffer count : Z) (m : Arm.umem) :
  let res := fst (Arm.device_read_cases n cp15 buffer count m) in
  res = Arm.Ret (- Arm.EFAULT) \/ res = Arm.Ret (count * 4) \/ res = Arm.Overflow.
Proof.
  revert m; induction n as [| k IH]; intros m; simpl.
  - destruct (count * 4 <=? CInt.INT_MAX); auto.
  - destruct (Arm.put_word (Arm.mrc cp15 k) (buffer + Z.of_nat k * 4) m)
      as [err m'].
    destruct (CInt.truth err); [now left | apply IH].
Qed.

Lemma count_of_length (length : Z) :
  0 <= length <= 0xffffffff ->
  CInt.to_int (length / 4) = length / 4 /\ 0 <= length / 4 <= 0x3fffffff.
Proof.
  intros H.
  assert (B : 0 <= length / 4 <= 0x3fffffff).
  { split; [apply Z.div_pos; lia |].
    apply Z.lt_succ_r, Z.div_lt_upper_bound; lia. }
  split; [| exact B].
  apply to_int_low. unfold CInt.INT_MAX. lia.
Qed.

(** C9.  For every [size_t] value of [length] the comparison [length < 0]
    is false, so [device_read] never takes the early [return 0]: it is the
    code from [count = length/4] on, and a returned 0 comes from [case 0],
    that is from a length below 4. *)
Theorem device_read_negative_length_dead (length : Z) :
  0 <= length <= 0xffffffff ->
  Arm.negative_length length = false
  /\ (forall (cp15 : Arm.coprocessor) (buffer : Z) (m : Arm.umem),
        Arm.device_read cp15 buffer length m
        = Arm.device_read_switch cp15 buffer length m)
  /\ (forall (cp15 : Arm.coprocessor) (buffer : Z) (m : Arm.umem),
        fst (Arm.device_read cp15 buffer length m) = Arm.Ret 0 -> length < 4).
Proof.
  intros H.
  assert (G : Arm.negative_length length = false).
  { unfold Arm.negative_length. change (CInt.to_uint32 0) with 0.
    apply Z.ltb_ge. lia. }
  split; [exact G |]. split.
  - intros cp15 buffer m. unfold Arm.device_read. now rewrite G.
  - intros cp15 buffer m. unfold Arm.device_read. rewrite G.
    unfold Arm.device_read_switch.
    destruct (count_of_length length H) as [-> B].
    destruct (device_read_cases_result
                (Arm.entry_case (length / 4)) cp15 buffer (length / 4) m)
      as [E | [E | E]]; cbv zeta in E; rewrite E; intros R.
    + discriminate R.
    + injection R as R.
      destruct (Z.lt_ge_cases length 4) as [Lt | Ge]; [exact Lt |].
      assert (1 <= length / 4) by (apply Z.div_le_lower_bound; lia). lia.
    + discriminate R.
Qed.

Lemma device_read_negative_length_dead_witness :
  Arm.negative_length 8 = false
  /\ (forall (cp15 : Arm.coprocessor) (buffer : Z) (m : Arm.umem),
        Arm.device_read cp15 buffer 8 m = Arm.device_read_switch cp15 buffer 8 m)
  /\ (forall (cp15 : Arm.coprocessor) (buffer : Z) (m : Arm.umem),
        fst (Arm.device_read cp15 buffer 8 m) = Arm.Ret 0 -> 8 < 4).
Proof.
  apply (device_read_negative_length_dead 8). lia.
Defined.

(** A read of 8 bytes into a writable buffer stores the first two
    registers, least significant byte first, and returns 8; a read of 3
    bytes stores nothing and returns 0; a read into an unmapped buffer
    returns [-EFAULT]. *)
Example device_read_two_words :
  let '(res, m) := Arm.device_read Arm.cp15_pattern 0x1000 8 Arm.small_buffer in
  res = Arm.Ret 8
  /\ map m [0x1000; 0x1001; 0x1002; 0x1003; 0x1004; 0x1005; 0x1006; 0x1007; 0x1008]
     = [Some 0x00; Some 0x00; Some 0x00; Some 0x41;
        Some 0x01; Some 0x00; Some 0x00; Some 0x41; Some 0].
Proof. split; reflexivity. Qed.

Example device_read_short_length :
  fst (Arm.device_read Arm.cp15_pattern 0x1000 3 Arm.small_buffer) = Arm.Ret 0.
Proof. reflexivity. Qed.

Example device_read_unmapped :
  fst (Arm.device_read Arm.cp15_pattern 0 8 Arm.small_buffer)
  = Arm.Ret (- Arm.EFAULT).
Proof. reflexivity. Qed.

(** A length of 100 takes the [default] label: eighteen words are stored
    (the buffer here holds sixteen, so the store of word 17 fails). *)
Example device_read_default_label :
  Arm.entry_case (CInt.to_int (100 / 4)) = 18%nat
  /\ fst (Arm.device_read Arm.cp15_pattern 0x1000 100 Arm.small_buffer)
     = Arm.Ret (- Arm.EFAULT).
Proof. split; reflexivity. Qed.

(** * Further properties of ia32/ggg-cpuid.c *)

Lemma trace_of_bind {A B : Type} (m : outcome A) (k : A -> outcome B) :
  trace_of (bind m k) =
  match m with
  | Returned a t => t ++ trace_of (k a)
  | Undefined t => t
  | OutOfFuel t => t
  end.
Proof.
  destruct m as [a t | t | t]; simpl; try reflexivity.
  destruct (k a); reflexivity.
Qed.

Lemma queries_of_app (t t' : trace) :
  queries_of (t ++ t') = queries_of t ++ queries_of t'.
Proof.
  induction t as [| e t IH]; simpl; [reflexivity |].
  destruct e; simpl; now rewrite IH.
Qed.

Lemma rows_of_app (t t' : trace) :
  rows_of (t ++ t') = rows_of t ++ rows_of t'.
Proof.
  induction t as [| e t IH]; simpl; [reflexivity |].
  destruct e; simpl; now rewrite IH.
Qed.

(** Whatever the fuel, the trace of [cpuid_leaf] is the call alone. *)
Lemma trace_of_cpuid_leaf (fuel : nat) (hw : primitive) (leaf : Z) :
  trace_of (cpuid_leaf fuel hw leaf) = [EvLeaf leaf].
Proof.
  destruct fuel as [| fuel]; [reflexivity |].
  now rewrite cpuid_leaf_returns.
Qed.

(** X1.  [cpuid_leaf] never executes the instruction and never prints: for every
    leaf and primitive and however far the run is followed, no selector is
    queried and no row is emitted; with any fuel at all it returns. *)
Theorem cpuid_leaf_never_queries (fuel : nat) (hw : primitive) (leaf : Z) :
  queries_of (trace_of (cpuid_leaf fuel hw leaf)) = []
  /\ rows_of (trace_of (cpuid_leaf fuel hw leaf)) = []
  /\ leaves_of (trace_of (cpuid_leaf fuel hw leaf)) = [leaf]
  /\ cpuid_leaf (S fuel) hw leaf = Returned tt [EvLeaf leaf].
Proof.
  rewrite trace_of_cpuid_leaf, cpuid_leaf_returns. repeat split.
Qed.

(** The trace of the level loop holds calls of [cpuid_leaf] and nothing
    else, however the loop ends. *)
Lemma cpuid_level_loop_only_calls (fuel leaf_fuel : nat) (hw : primitive)
    (leaf max_leaf : Z) :
  exists leaves : list Z,
    trace_of (cpuid_level_loop fuel leaf_fuel hw leaf max_leaf)
    = map EvLeaf leaves.
Proof.
  revert leaf; induction fuel as [| fuel IH]; intros leaf.
  - exists []. reflexivity.
  - rewrite cpuid_level_loop_S.
    destruct (CInt.to_uint32 leaf <=? max_leaf); [| exists []; reflexivity].
    rewrite trace_of_bind.
    pose proof (trace_of_cpuid_leaf leaf_fuel hw (CInt.to_uint32 leaf)) as T.
    destruct (cpuid_leaf leaf_fuel hw (CInt.to_uint32 leaf)) as [[] t | t | t];
      simpl in T; subst t.
    + destruct (leaf =? CInt.INT_MAX).
      * exists [CInt.to_uint32 leaf]. reflexivity.
      * destruct (IH (leaf + 1)) as [ls E]. rewrite E.
        exists (CInt.to_uint32 leaf :: ls). reflexivity.
    + exists [CInt.to_uint32 leaf]. reflexivity.
    + exists [CInt.to_uint32 leaf]. reflexivity.
Qed.

Lemma trace_of_cpuid_level (fuel : nat) (hw : primitive) (level : Z) :
  exists leaves : list Z,
    trace_of (cpuid_level fuel hw level)
    = EvQuery level 0 :: map EvLeaf leaves.
Proof.
  rewrite cpuid_level_unfold, trace_of_bind.
  destruct (cpuid_level_loop_only_calls fuel fuel hw (CInt.to_int level)
              (eax (hw level 0))) as [ls E].
  exists ls. now rewrite E.
Qed.

(** X5.  [cpuid_level] executes the instruction once, for (level, 0), and prints
    nothing, whatever the primitive answers and however the loop ends. *)
Theorem cpuid_level_one_query (fuel : nat) (hw : primitive) (level : Z) :
  queries_of (trace_of (cpuid_level fuel hw level)) = [(level, 0)]
  /\ rows_of (trace_of (cpuid_level fuel hw level)) = [].
Proof.
  destruct (trace_of_cpuid_level fuel hw level) as [ls E]. rewrite E.
  simpl. now rewrite queries_of_EvLeaf, rows_of_EvLeaf.
Qed.

Lemma rows_of_dump_cpuid (fuel : nat) (hw : primitive) :
  rows_of (trace_of (dump_cpuid fuel hw)) = [].
Proof.
  unfold dump_cpuid. rewrite trace_of_bind.
  destruct (trace_of_cpuid_level fuel hw 0) as [ls0 E0].
  destruct (trace_of_cpuid_level fuel hw 0x80000000) as [ls1 E1].
  destruct (cpuid_level fuel hw 0) as [[] t | t | t]; simpl in E0; subst t;
    simpl; rewrite ?rows_of_app, ?E1; simpl; now rewrite ?rows_of_EvLeaf.
Qed.

Lemma trace_of_then_status {A : Type} (o : outcome A) :
  trace_of (bind o (fun _ => ret 0)) = trace_of o.
Proof. rewrite trace_of_bind. destruct o; simpl; now rewrite ?app_nil_r. Qed.

(** X9.  What [main] prints, for every pair of options and every primitive: the
    one row of the selector when both options carry a value other than
    [0xffffffff], and no row at all in the single-leaf and full-dump
    modes. *)
Theorem main_rows (fuel : nat) (hw : primitive) (opt_leaf opt_subleaf : option Z) :
  rows_of (trace_of (main fuel hw opt_leaf opt_subleaf)) =
  if negb (option_value opt_leaf =? 0xffffffff)
     && negb (option_value opt_subleaf =? 0xffffffff)
  then [(option_value opt_leaf, option_value opt_subleaf,
         hw (option_value opt_leaf) (option_value opt_subleaf))]
  else [].
Proof.
  unfold main. rewrite trace_of_then_status.
  destruct (option_value opt_leaf =? 0xffffffff); simpl.
  - apply rows_of_dump_cpuid.
  - destruct (option_value opt_subleaf =? 0xffffffff); simpl.
    + now rewrite trace_of_cpuid_leaf.
    + reflexivity.
Qed.

(** X10.  With a leaf given and no subleaf, [main] calls [cpuid_leaf] on the
    leaf and exits with status 0 without a query or a row. *)
Theorem main_single_leaf (fuel : nat) (hw : primitive) (leaf : Z) :
  0 <= leaf < 0xffffffff ->
  main (S fuel) hw (Some leaf) None = Returned 0 [EvLeaf leaf].
Proof.
  intros H. unfold main.
  destruct (option_value_some leaf H) as [-> ->].
  change (option_value None =? 0xffffffff) with true. cbv iota beta. simpl negb.
  cbv iota. now rewrite cpuid_leaf_returns.
Qed.

Lemma main_single_leaf_witness :
  main 1 hw_leaf7 (Some 0x7) None = Returned 0 [EvLeaf 0x7].
Proof. apply (main_single_leaf 0 hw_leaf7 0x7). lia. Defined.

(** *** cpuid_level: how the loop ends *)

Lemma leaf_range_app (n k : nat) (first : Z) :
  leaf_range first (n + k)
  = leaf_range first n ++ leaf_range (first + Z.of_nat n) k.
Proof.
  revert first; induction n as [| n IH]; intros first.
  - simpl. now replace (first + 0) with first by lia.
  - change (S n + k)%nat with (S (n + k)).
    change (leaf_range first (S (n + k)))
      with (first :: leaf_range (first + 1) (n + k)).
    change (leaf_range first (S n)) with (first :: leaf_range (first + 1) n).
    rewrite IH. simpl app.
    now replace (first + 1 + Z.of_nat n) with (first + Z.of_nat (S n)) by lia.
Qed.

Lemma bind_emit_undefined {B : Type} (t t' : trace) :
  bind (Returned tt t) (fun _ => @Undefined B t') = Undefined (t ++ t').
Proof. reflexivity. Qed.

(** The level returns after the calls for base..max_leaf when the loop
    meets neither [0x7fffffff] nor a maximum of [0xffffffff]. *)
Lemma cpuid_level_returns (fuel : nat) (hw : primitive) (base : Z) :
  0 <= base <= 0xffffffff ->
  0 <= eax (hw base 0) < 0xffffffff ->
  ~ (base <= 0x7fffffff <= eax (hw base 0)) ->
  (Z.to_nat (eax (hw base 0) - base + 1)%Z < fuel)%nat ->
  cpuid_level fuel hw base
  = Returned tt
      (EvQuery base 0
       :: map EvLeaf (leaf_range base (Z.to_nat (eax (hw base 0) - base + 1)))).
Proof.
  intros Hb Hm Hmid Hfuel.
  set (m := eax (hw base 0)) in *.
  set (n := Z.to_nat (m - base + 1)) in *.
  assert (R : forall i, 0 <= i <= Z.of_nat n ->
                CInt.to_uint32 (CInt.to_int base + i) = base + i).
  { intros i Hi. apply to_uint32_to_int_add;
      unfold CInt.in_uint32, CInt.UINT32_MAX; lia. }
  rewrite cpuid_level_unfold. fold m.
  rewrite (cpuid_level_loop_complete n fuel fuel hw (CInt.to_int base) m).
  - rewrite (map_to_uint32_leaf_range n (CInt.to_int base) base)
      by (intros i Hi; apply R; lia).
    reflexivity.
  - lia.
  - exact Hfuel.
  - intros i Hi. rewrite R by lia. split; [lia |].
    destruct (Z.le_gt_cases base CInt.INT_MAX) as [Lo | Hi'].
    + rewrite to_int_low by lia. unfold CInt.INT_MAX in *. lia.
    + rewrite to_int_high by (unfold CInt.UINT32_MAX; lia).
      unfold CInt.INT_MAX in *. lia.
  - rewrite R by lia. lia.
Qed.

(** From a counter in 0..INT_MAX with a maximum of at least INT_MAX the
    loop calls [cpuid_leaf] up to leaf INT_MAX and then overflows. *)
Lemma cpuid_level_loop_overflow (fuel leaf_fuel : nat) (hw : primitive)
    (leaf max_leaf : Z) :
  (0 < leaf_fuel)%nat ->
  0 <= leaf <= CInt.INT_MAX -> CInt.INT_MAX <= max_leaf ->
  (Z.to_nat (CInt.INT_MAX - leaf + 1) <= fuel)%nat ->
  cpuid_level_loop fuel leaf_fuel hw leaf max_leaf
  = Undefined (map EvLeaf (leaf_range leaf (Z.to_nat (CInt.INT_MAX - leaf + 1)))).
Proof.
  intros Hf Hl Hm Hfuel.
  set (n := Z.to_nat (CInt.INT_MAX - leaf)).
  assert (Hn : Z.to_nat (CInt.INT_MAX - leaf + 1) = (n + 1)%nat)
    by (unfold n; lia).
  rewrite Hn in *.
  assert (R : forall i, 0 <= i <= Z.of_nat n ->
                CInt.to_uint32 (leaf + i) = leaf + i).
  { intros i Hi. apply to_uint32_small.
    unfold CInt.in_uint32, CInt.UINT32_MAX, CInt.INT_MAX in *. lia. }
  replace fuel with (n + S (fuel - n - 1))%nat by lia.
  rewrite (cpuid_level_loop_run n _ leaf_fuel hw leaf max_leaf Hf)
    by (intros i Hi; rewrite R by lia; lia).
  rewrite (map_to_uint32_leaf_range n leaf leaf)
    by (intros i Hi; apply R; lia).
  rewrite cpuid_level_loop_S, (R (Z.of_nat n)) by lia.
  replace (leaf + Z.of_nat n) with CInt.INT_MAX by lia.
  destruct (Z.leb_spec CInt.INT_MAX max_leaf); [| lia].
  rewrite (cpuid_leaf_returns_pos leaf_fuel hw _ Hf), Z.eqb_refl.
  rewrite leaf_range_app, map_app.
  replace (leaf + Z.of_nat n) with CInt.INT_MAX by lia.
  reflexivity.
Qed.

(** X6.  When the leaves from the base to the reported maximum include
    [0x7fffffff], [cpuid_level] calls [cpuid_leaf] for base..0x7fffffff and
    then increments its [int] counter at [INT_MAX]: the run ends in
    undefined behaviour, not in a return. *)
Theorem cpuid_level_signed_overflow (fuel : nat) (hw : primitive) (base : Z) :
  0 <= base <= 0x7fffffff ->
  0x7fffffff <= eax (hw base 0) ->
  (Z.to_nat (0x7fffffff - base + 1)%Z <= fuel)%nat ->
  cpuid_level fuel hw base
  = Undefined
      (EvQuery base 0
       :: map EvLeaf (leaf_range base (Z.to_nat (0x7fffffff - base + 1)))).
Proof.
  intros Hb Hm Hfuel.
  rewrite cpuid_level_unfold.
  rewrite to_int_low by (unfold CInt.INT_MAX; lia).
  rewrite (cpuid_level_loop_overflow fuel fuel hw base (eax (hw base 0)));
    unfold CInt.INT_MAX; try lia.
  reflexivity.
Qed.

Lemma cpuid_level_signed_overflow_witness :
  cpuid_level 2 hw_int_max 0x7ffffffe
  = Undefined
      (EvQuery 0x7ffffffe 0
       :: map EvLeaf
            (leaf_range 0x7ffffffe (Z.to_nat (0x7fffffff - 0x7ffffffe + 1)))).
Proof.
  apply (cpuid_level_signed_overflow 2 hw_int_max 0x7ffffffe); simpl; lia.
Defined.

(** X7.  At a base above [0x7fffffff] with a reported maximum of [0xffffffff]
    the loop condition never fails: [cpuid_leaf] is called for
    base..0xffffffff, then for 0..0x7fffffff, and the run ends in the
    overflow of the counter. *)
Theorem cpuid_level_wrap_overflow (fuel : nat) (hw : primitive) (base : Z) :
  0x7fffffff < base <= 0xffffffff ->
  eax (hw base 0) = 0xffffffff ->
  2 ^ 32 - base + 2 ^ 31 <= Z.of_nat fuel ->
  cpuid_level fuel hw base
  = Undefined
      (EvQuery base 0
       :: map EvLeaf (leaf_range base (Z.to_nat (2 ^ 32 - base))
                      ++ leaf_range 0 (Z.to_nat (2 ^ 31)))).
Proof.
  intros Hb Hm Hfuel.
  set (n := Z.to_nat (2 ^ 32 - base)).
  assert (Hf : (0 < fuel)%nat) by lia.
  rewrite cpuid_level_unfold, Hm.
  rewrite to_int_high by (unfold CInt.INT_MAX, CInt.UINT32_MAX; lia).
  assert (R : forall i, 0 <= i < Z.of_nat n ->
                CInt.to_uint32 (base - 2 ^ 32 + i) = base + i).
  { intros i Hi.
    replace (base - 2 ^ 32 + i) with (base + i + (-1) * 2 ^ 32) by lia.
    apply to_uint32_wrap. unfold CInt.in_uint32, CInt.UINT32_MAX. lia. }
  pattern fuel at 1.
  replace fuel with (n + (fuel - n))%nat by lia.
  rewrite (cpuid_level_loop_run n _ fuel hw (base - 2 ^ 32) 0xffffffff Hf)
    by (intros i Hi; rewrite (R i Hi); unfold CInt.INT_MAX; lia).
  rewrite (map_to_uint32_leaf_range n (base - 2 ^ 32) base R).
  replace (base - 2 ^ 32 + Z.of_nat n) with 0 by lia.
  rewrite (cpuid_level_loop_overflow (fuel - n) fuel hw 0 0xffffffff Hf);
    unfold CInt.INT_MAX; try lia.
  change (0x7fffffff - 0 + 1) with (2 ^ 31).
  rewrite !bind_emit_undefined, map_app. reflexivity.
Qed.

Lemma cpuid_level_wrap_overflow_witness :
  cpuid_level (Z.to_nat (2 ^ 31 + 1)) hw_max_leaf 0xffffffff
  = Undefined
      (EvQuery 0xffffffff 0
       :: map EvLeaf (leaf_range 0xffffffff (Z.to_nat (2 ^ 32 - 0xffffffff))
                      ++ leaf_range 0 (Z.to_nat (2 ^ 31)))).
Proof.
  apply (cpuid_level_wrap_overflow (Z.to_nat (2 ^ 31 + 1)) hw_max_leaf 0xffffffff).
  - lia.
  - reflexivity.
  - rewrite Z2Nat.id; lia.
Defined.

(** *** dump_cpuid on ordinary hardware *)

(** X8.  When the standard level reports a maximum below [0x7fffffff] and the
    extended level one below [0xffffffff], the full dump returns: it
    queries (0, 0), calls [cpuid_leaf] for 0..max0, queries
    (0x80000000, 0) and calls [cpuid_leaf] for 0x80000000..max1 (for no
    leaf when max1 is below 0x80000000). *)
Theorem dump_cpuid_returns (fuel : nat) (hw : primitive) :
  0 <= eax (hw 0 0) < 0x7fffffff ->
  0 <= eax (hw 0x80000000 0) < 0xffffffff ->
  (Z.to_nat (eax (hw 0 0) + 1)%Z < fuel)%nat ->
  (Z.to_nat (eax (hw 0x80000000 0) - 0x80000000 + 1)%Z < fuel)%nat ->
  dump_cpuid fuel hw
  = Returned tt
      ((EvQuery 0 0
        :: map EvLeaf (leaf_range 0 (Z.to_nat (eax (hw 0 0) + 1))))
       ++ EvQuery 0x80000000 0
          :: map EvLeaf
               (leaf_range 0x80000000
                  (Z.to_nat (eax (hw 0x80000000 0) - 0x80000000 + 1)))).
Proof.
  intros H0 H1 F0 F1. unfold dump_cpuid.
  rewrite (cpuid_level_returns fuel hw 0), (cpuid_level_returns fuel hw 0x80000000);
    try lia.
  - replace (eax (hw 0 0) - 0 + 1) with (eax (hw 0 0) + 1) by lia.
    reflexivity.
Qed.

Lemma dump_cpuid_returns_witness :
  dump_cpuid 3 hw_two_levels
  = Returned tt
      ((EvQuery 0 0
        :: map EvLeaf (leaf_range 0 (Z.to_nat (eax (hw_two_levels 0 0) + 1))))
       ++ EvQuery 0x80000000 0
          :: map EvLeaf
               (leaf_range 0x80000000
                  (Z.to_nat (eax (hw_two_levels 0x80000000 0) - 0x80000000 + 1)))).
Proof.
  apply (dump_cpuid_returns 3 hw_two_levels); simpl; lia.
Defined.

(** * Further properties of arm/ggg-driver.c *)

(** ** put_user and put_word *)

Lemma put_user_cases (x ptr : Z) (m : Arm.umem) :
  (Arm.writable m ptr = true
   /\ Arm.put_user x ptr m = (0, Arm.store m ptr (x mod 256)))
  \/ (Arm.writable m ptr = false
      /\ Arm.put_user x ptr m = (- Arm.EFAULT, m)).
Proof.
  unfold Arm.writable, Arm.put_user. destruct (m ptr); auto.
Qed.

Lemma store_other (m : Arm.umem) (addr byte a : Z) :
  a <> addr -> Arm.store m addr byte a = m a.
Proof.
  intros N. unfold Arm.store. now destruct (Z.eqb_spec a addr).
Qed.

Lemma store_same (m : Arm.umem) (addr byte : Z) :
  Arm.store m addr byte addr = Some byte.
Proof. unfold Arm.store. now rewrite Z.eqb_refl. Qed.

Lemma writable_store (m : Arm.umem) (addr byte a : Z) :
  Arm.writable m addr = true ->
  Arm.writable (Arm.store m addr byte) a = Arm.writable m a.
Proof.
  intros W. unfold Arm.writable, Arm.store in *.
  destruct (Z.eqb_spec a addr) as [-> | N]; [| reflexivity].
  now destruct (m addr).
Qed.

Lemma put_word_loop_S (count : nat) (cpuid_val buffer : Z) (m : Arm.umem) :
  Arm.put_word_loop (S count) cpuid_val buffer m =
  let '(err, m') :=
    Arm.put_user (Z.shiftr cpuid_val ((3 - Z.of_nat count) * 8)) buffer m in
  if CInt.truth err then (- Arm.EFAULT, m')
  else Arm.put_word_loop count cpuid_val (buffer + 1) m'.
Proof. reflexivity. Qed.

(** Bytes outside the [count] bytes from [buffer] on are left alone. *)
Lemma put_word_loop_frame (count : nat) (v buffer : Z) (m : Arm.umem) (a : Z) :
  a < buffer \/ buffer + Z.of_nat count <= a ->
  snd (Arm.put_word_loop count v buffer m) a = m a.
Proof.
  revert buffer m; induction count as [| c IH]; intros buffer m H;
    [reflexivity |].
  rewrite put_word_loop_S.
  destruct (put_user_cases (Z.shiftr v ((3 - Z.of_nat c) * 8)) buffer m)
    as [[W E] | [W E]]; rewrite E; cbv beta iota.
  - change (CInt.truth 0) with false. cbv iota.
    rewrite IH by lia. apply store_other. lia.
  - reflexivity.
Qed.

(** No address becomes writable or stops being so. *)
Lemma put_word_loop_writable (count : nat) (v buffer : Z) (m : Arm.umem) (a : Z) :
  Arm.writable (snd (Arm.put_word_loop count v buffer m)) a = Arm.writable m a.
Proof.
  revert buffer m; induction count as [| c IH]; intros buffer m;
    [reflexivity |].
  rewrite put_word_loop_S.
  destruct (put_user_cases (Z.shiftr v ((3 - Z.of_nat c) * 8)) buffer m)
    as [[W E] | [W E]]; rewrite E; cbv beta iota.
  - change (CInt.truth 0) with false. cbv iota.
    rewrite IH. now apply writable_store.
  - reflexivity.
Qed.

(** With every byte writable the loop returns 0 and byte [i] holds the
    value shifted by the amount the body computes for it. *)
Lemma put_word_loop_ok (count : nat) (v buffer : Z) (m : Arm.umem) :
  (forall i, 0 <= i < Z.of_nat count -> Arm.writable m (buffer + i) = true) ->
  fst (Arm.put_word_loop count v buffer m) = 0
  /\ forall i, 0 <= i < Z.of_nat count ->
       snd (Arm.put_word_loop count v buffer m) (buffer + i)
       = Some (Z.shiftr v ((3 - (Z.of_nat count - 1 - i)) * 8) mod 256).
Proof.
  revert buffer m; induction count as [| c IH]; intros buffer m H.
  - split; [reflexivity | intros i Hi; simpl in Hi; lia].
  - rewrite put_word_loop_S.
    destruct (put_user_cases (Z.shiftr v ((3 - Z.of_nat c) * 8)) buffer m)
      as [[W E] | [W E]]; rewrite E; cbv beta iota.
    + change (CInt.truth 0) with false. cbv iota.
      set (m' := Arm.store m buffer (Z.shiftr v ((3 - Z.of_nat c) * 8) mod 256)).
      destruct (IH (buffer + 1) m') as [R B].
      { intros i Hi. unfold m'. rewrite writable_store by exact W.
        replace (buffer + 1 + i) with (buffer + (i + 1)) by lia.
        apply H. lia. }
      split; [exact R |]. intros i Hi.
      destruct (Z.eq_dec i 0) as [-> | N].
      * rewrite Z.add_0_r, put_word_loop_frame by lia.
        unfold m'. rewrite store_same.
        now replace (Z.of_nat (S c) - 1 - 0) with (Z.of_nat c) by lia.
      * replace (buffer + i) with (buffer + 1 + (i - 1)) by lia.
        rewrite B by lia.
        now replace (Z.of_nat c - 1 - (i - 1)) with (Z.of_nat (S c) - 1 - i)
          by lia.
    + rewrite <- (Z.add_0_r buffer), H in W by lia. discriminate.
Qed.

(** With some byte not writable the loop returns [-EFAULT]. *)
Lemma put_word_loop_fault (count : nat) (v buffer : Z) (m : Arm.umem) (i : Z) :
  0 <= i < Z.of_nat count -> Arm.writable m (buffer + i) = false ->
  fst (Arm.put_word_loop count v buffer m) = - Arm.EFAULT.
Proof.
  revert buffer m i; induction count as [| c IH]; intros buffer m i Hi W;
    [simpl in Hi; lia |].
  rewrite put_word_loop_S.
  destruct (put_user_cases (Z.shiftr v ((3 - Z.of_nat c) * 8)) buffer m)
    as [[W0 E] | [W0 E]]; rewrite E; cbv beta iota.
  - change (CInt.truth 0) with false. cbv iota.
    destruct (Z.eq_dec i 0) as [-> | N].
    + rewrite Z.add_0_r in W. congruence.
    + apply (IH (buffer + 1) _ (i - 1)); [lia |].
      rewrite writable_store by exact W0.
      now replace (buffer + 1 + (i - 1)) with (buffer + i) by lia.
  - reflexivity.
Qed.

Lemma shiftr_byte (v j : Z) :
  0 <= j -> Z.shiftr v (j * 8) mod 256 = (v / 2 ^ (j * 8)) mod 256.
Proof. intros H. rewrite Z.shiftr_div_pow2 by lia. reflexivity. Qed.

(** X11.  [put_word] into four writable bytes returns 0 and stores the value
    least significant byte first, so that a reader of the four bytes gets
    the value back; every other byte keeps its content. *)
Theorem put_word_stores (v buffer : Z) (m : Arm.umem) :
  0 <= v <= 0xffffffff ->
  (forall j, 0 <= j < 4 -> Arm.writable m (buffer + j) = true) ->
  fst (Arm.put_word v buffer m) = 0
  /\ Arm.holds_word (snd (Arm.put_word v buffer m)) buffer v
  /\ Arm.load_word (snd (Arm.put_word v buffer m)) buffer = Some v
  /\ (forall a, a < buffer \/ buffer + 4 <= a ->
        snd (Arm.put_word v buffer m) a = m a).
Proof.
  intros Hv W. unfold Arm.put_word.
  destruct (put_word_loop_ok 4 v buffer m W) as [R B].
  assert (H : Arm.holds_word (snd (Arm.put_word_loop 4 v buffer m)) buffer v).
  { intros j Hj. rewrite (B j Hj). do 3 f_equal. lia. }
  split; [exact R |]. split; [exact H |]. split.
  - assert (B0 := H 0 ltac:(lia)). rewrite Z.add_0_r in B0.
    assert (B1 := H 1 ltac:(lia)). assert (B2 := H 2 ltac:(lia)).
    assert (B3 := H 3 ltac:(lia)).
    unfold Arm.load_word. rewrite B0, B1, B2, B3.
    rewrite !shiftr_byte by lia. f_equal.
    change (v / 2 ^ (0 * 8)) with (v / 1). rewrite Z.div_1_r.
    symmetry. apply uint32_of_bytes.
    unfold CInt.in_uint32, CInt.UINT32_MAX. lia.
  - intros a Ha. apply put_word_loop_frame. simpl Z.of_nat. lia.
Qed.

Lemma small_buffer_writable (j : Z) :
  0 <= j < 64 -> Arm.writable Arm.small_buffer (0x1000 + j) = true.
Proof.
  intros H. unfold Arm.writable, Arm.small_buffer.
  destruct (Z.leb_spec 0x1000 (0x1000 + j)); [| lia].
  destruct (Z.ltb_spec (0x1000 + j) 0x1040); [reflexivity | lia].
Qed.

Lemma put_word_stores_witness :
  fst (Arm.put_word 0x410fc075 0x1000 Arm.small_buffer) = 0
  /\ Arm.holds_word (snd (Arm.put_word 0x410fc075 0x1000 Arm.small_buffer))
       0x1000 0x410fc075
  /\ Arm.load_word (snd (Arm.put_word 0x410fc075 0x1000 Arm.small_buffer)) 0x1000
     = Some 0x410fc075
  /\ (forall a, a < 0x1000 \/ 0x1000 + 4 <= a ->
        snd (Arm.put_word 0x410fc075 0x1000 Arm.small_buffer) a
        = Arm.small_buffer a).
Proof.
  apply (put_word_stores 0x410fc075 0x1000 Arm.small_buffer); [lia |].
  intros j Hj. apply small_buffer_writable. lia.
Defined.

(** X12.  [put_word] returns 0 or [-EFAULT], and 0 exactly when all four bytes
    are writable; whatever it returns, bytes outside the four keep their
    content and no address changes between writable and not. *)
Theorem put_word_status (v buffer : Z) (m : Arm.umem) :
  (fst (Arm.put_word v buffer m) = 0
   \/ fst (Arm.put_word v buffer m) = - Arm.EFAULT)
  /\ (fst (Arm.put_word v buffer m) = 0
      <-> forall j, 0 <= j < 4 -> Arm.writable m (buffer + j) = true)
  /\ (forall a, a < buffer \/ buffer + 4 <= a ->
        snd (Arm.put_word v buffer m) a = m a)
  /\ (forall a, Arm.writable (snd (Arm.put_word v buffer m)) a
                = Arm.writable m a).
Proof.
  unfold Arm.put_word.
  assert (D : (forall j, 0 <= j < 4 -> Arm.writable m (buffer + j) = true)
              \/ exists j, 0 <= j < 4 /\ Arm.writable m (buffer + j) = false).
  { destruct (Arm.writable m (buffer + 0)) eqn:W0;
      [| right; exists 0; split; [lia | exact W0]].
    destruct (Arm.writable m (buffer + 1)) eqn:W1;
      [| right; exists 1; split; [lia | exact W1]].
    destruct (Arm.writable m (buffer + 2)) eqn:W2;
      [| right; exists 2; split; [lia | exact W2]].
    destruct (Arm.writable m (buffer + 3)) eqn:W3;
      [| right; exists 3; split; [lia | exact W3]].
    left. intros j Hj.
    assert (C : j = 0 \/ j = 1 \/ j = 2 \/ j = 3) by lia.
    destruct C as [-> | [-> | [-> | ->]]]; assumption. }
  assert (S : fst (Arm.put_word_loop 4 v buffer m) = 0
              <-> forall j, 0 <= j < 4 -> Arm.writable m (buffer + j) = true).
  { destruct D as [W | (j & Hj & W)].
    - split; [intros _; exact W |].
      intros _. apply (put_word_loop_ok 4 v buffer m W).
    - rewrite (put_word_loop_fault 4 v buffer m j Hj W).
      split; [discriminate |]. intros A. rewrite (A j Hj) in W. discriminate. }
  split; [| split; [exact S | split]].
  - destruct D as [W | (j & Hj & W)].
    + left. now apply S.
    + right. exact (put_word_loop_fault 4 v buffer m j Hj W).
  - intros a Ha. apply put_word_loop_frame. simpl Z.of_nat. lia.
  - intros a. apply put_word_loop_writable.
Qed.

(** ** device_read *)

Lemma put_word_fst (v buffer : Z) (m : Arm.umem) :
  ((forall j, 0 <= j < 4 -> Arm.writable m (buffer + j) = true)
   /\ fst (Arm.put_word v buffer m) = 0)
  \/ ((exists j, 0 <= j < 4 /\ Arm.writable m (buffer + j) = false)
      /\ fst (Arm.put_word v buffer m) = - Arm.EFAULT).
Proof.
  unfold Arm.put_word.
  assert (D : (forall j, 0 <= j < 4 -> Arm.writable m (buffer + j) = true)
              \/ exists j, 0 <= j < 4 /\ Arm.writable m (buffer + j) = false).
  { destruct (Arm.writable m (buffer + 0)) eqn:W0;
      [| right; exists 0; split; [lia | exact W0]].
    destruct (Arm.writable m (buffer + 1)) eqn:W1;
      [| right; exists 1; split; [lia | exact W1]].
    destruct (Arm.writable m (buffer + 2)) eqn:W2;
      [| right; exists 2; split; [lia | exact W2]].
    destruct (Arm.writable m (buffer + 3)) eqn:W3;
      [| right; exists 3; split; [lia | exact W3]].
    left. intros j Hj.
    assert (C : j = 0 \/ j = 1 \/ j = 2 \/ j = 3) by lia.
    destruct C as [-> | [-> | [-> | ->]]]; assumption. }
  destruct D as [W | (j & Hj & W)].
  - left. split; [exact W | apply (put_word_loop_ok 4 v buffer m W)].
  - right. split; [now exists j |].
    exact (put_word_loop_fault 4 v buffer m j Hj W).
Qed.

Lemma device_read_cases_S (k : nat) (cp15 : Arm.coprocessor)
    (buffer count : Z) (m : Arm.umem) :
  Arm.device_read_cases (S k) cp15 buffer count m =
  if CInt.truth (fst (Arm.put_word (Arm.mrc cp15 k) (buffer + Z.of_nat k * 4) m))
  then (Arm.Ret (- Arm.EFAULT),
        snd (Arm.put_word (Arm.mrc cp15 k) (buffer + Z.of_nat k * 4) m))
  else Arm.device_read_cases k cp15 buffer count
         (snd (Arm.put_word (Arm.mrc cp15 k) (buffer + Z.of_nat k * 4) m)).
Proof.
  cbn [Arm.device_read_cases].
  destruct (Arm.put_word (Arm.mrc cp15 k) (buffer + Z.of_nat k * 4) m);
    reflexivity.
Qed.

(** The chain entered at [case n] leaves every byte outside the first [n]
    words alone. *)
Lemma device_read_cases_frame (n : nat) (cp15 : Arm.coprocessor)
    (buffer count : Z) (m : Arm.umem) (a : Z) :
  a < buffer \/ buffer + 4 * Z.of_nat n <= a ->
  snd (Arm.device_read_cases n cp15 buffer count m) a = m a.
Proof.
  revert m; induction n as [| k IH]; intros m H; [reflexivity |].
  rewrite device_read_cases_S.
  assert (F : snd (Arm.put_word (Arm.mrc cp15 k) (buffer + Z.of_nat k * 4) m) a
              = m a).
  { unfold Arm.put_word. apply put_word_loop_frame. simpl Z.of_nat. lia. }
  destruct (CInt.truth _); [exact F |].
  rewrite IH by lia. exact F.
Qed.

Lemma device_read_cases_writable (n : nat) (cp15 : Arm.coprocessor)
    (buffer count : Z) (m : Arm.umem) (a : Z) :
  Arm.writable (snd (Arm.device_read_cases n cp15 buffer count m)) a
  = Arm.writable m a.
Proof.
  revert m; induction n as [| k IH]; intros m; [reflexivity |].
  rewrite device_read_cases_S.
  assert (F : Arm.writable
                (snd (Arm.put_word (Arm.mrc cp15 k) (buffer + Z.of_nat k * 4) m)) a
              = Arm.writable m a)
    by (unfold Arm.put_word; apply put_word_loop_writable).
  destruct (CInt.truth _); [exact F |].
  rewrite IH. exact F.
Qed.

(** With the first [n] words writable the chain stores the registers
    0..n-1, word [k] at [buffer + 4 k], and ends in [case 0]. *)
Lemma device_read_cases_ok (n : nat) (cp15 : Arm.coprocessor)
    (buffer count : Z) (m : Arm.umem) :
  (forall a, buffer <= a < buffer + 4 * Z.of_nat n -> Arm.writable m a = true) ->
  fst (Arm.device_read_cases n cp15 buffer count m)
  = (if count * 4 <=? CInt.INT_MAX then Arm.Ret (count * 4) else Arm.Overflow)
  /\ forall k : nat, (k < n)%nat ->
       Arm.holds_word (snd (Arm.device_read_cases n cp15 buffer count m))
         (buffer + 4 * Z.of_nat k) (Arm.mrc cp15 k).
Proof.
  revert m; induction n as [| n IH]; intros m W.
  - split; [reflexivity | intros k Hk; lia].
  - rewrite device_read_cases_S.
    set (m' := snd (Arm.put_word (Arm.mrc cp15 n) (buffer + Z.of_nat n * 4) m)).
    assert (Wn : forall j, 0 <= j < 4 ->
                   Arm.writable m (buffer + Z.of_nat n * 4 + j) = true)
      by (intros j Hj; apply W; lia).
    destruct (put_word_loop_ok 4 (Arm.mrc cp15 n) (buffer + Z.of_nat n * 4) m Wn)
      as [R B].
    fold (Arm.put_word (Arm.mrc cp15 n) (buffer + Z.of_nat n * 4) m) in R, B.
    rewrite R. change (CInt.truth 0) with false. cbv iota.
    destruct (IH m') as [R' B'].
    { intros a Ha. unfold m', Arm.put_word.
      rewrite put_word_loop_writable. apply W. lia. }
    split; [exact R' |]. intros k Hk.
    destruct (Nat.eq_dec k n) as [-> | N].
    + intros j Hj. rewrite device_read_cases_frame by lia.
      replace (buffer + 4 * Z.of_nat n + j) with (buffer + Z.of_nat n * 4 + j)
        by lia.
      fold m' in B. rewrite (B j Hj). do 3 f_equal. lia.
    + apply B'. lia.
Qed.

(** With a byte of the first [n] words not writable the chain returns
    [-EFAULT]. *)
Lemma device_read_cases_fault (n : nat) (cp15 : Arm.coprocessor)
    (buffer count : Z) (m : Arm.umem) (a : Z) :
  buffer <= a < buffer + 4 * Z.of_nat n -> Arm.writable m a = false ->
  fst (Arm.device_read_cases n cp15 buffer count m) = Arm.Ret (- Arm.EFAULT).
Proof.
  revert m; induction n as [| n IH]; intros m Ha W; [simpl in Ha; lia |].
  rewrite device_read_cases_S.
  destruct (put_word_fst (Arm.mrc cp15 n) (buffer + Z.of_nat n * 4) m)
    as [[Wn R] | [_ R]]; rewrite R.
  - change (CInt.truth 0) with false. cbv iota.
    apply IH.
    + destruct (Z.lt_ge_cases a (buffer + 4 * Z.of_nat n)) as [Lt | Ge];
        [lia |].
      exfalso.
      specialize (Wn (a - (buffer + Z.of_nat n * 4)) ltac:(lia)).
      replace (buffer + Z.of_nat n * 4 + (a - (buffer + Z.of_nat n * 4)))
        with a in Wn by lia.
      congruence.
    + unfold Arm.put_word. now rewrite put_word_loop_writable.
  - reflexivity.
Qed.

(** [device_read] is the chain entered at the smaller of [length/4] and
    18, with [count = length/4]. *)
Lemma device_read_eq (cp15 : Arm.coprocessor) (buffer length : Z) (m : Arm.umem) :
  0 <= length <= 0xffffffff ->
  Arm.device_read cp15 buffer length m
  = Arm.device_read_cases (Z.to_nat (Z.min (length / 4) 18)) cp15 buffer
      (length / 4) m.
Proof.
  intros H. unfold Arm.device_read, Arm.negative_length.
  change (CInt.to_uint32 0) with 0.
  destruct (Z.ltb_spec length 0); [lia |].
  unfold Arm.device_read_switch.
  destruct (count_of_length length H) as [-> B].
  unfold Arm.entry_case.
  destruct (Z.leb_spec 0 (length / 4)); [| lia].
  destruct (Z.leb_spec (length / 4) 18); simpl andb; cbv iota.
  - now rewrite Z.min_l by lia.
  - now rewrite Z.min_r by lia.
Qed.

Lemma large_buffer_writable (a : Z) :
  0x2000 <= a < 0x2050 -> Arm.writable Arm.large_buffer a = true.
Proof.
  intros H. unfold Arm.writable, Arm.large_buffer.
  destruct (Z.leb_spec 0x2000 a); [| lia].
  destruct (Z.ltb_spec a 0x2050); [reflexivity | lia].
Qed.

(** X13.  A read of fewer than 76 bytes into a buffer whose first [length/4]
    words are writable returns the length rounded down to a multiple of 4
    and stores the registers 0..length/4 - 1, register [k] at
    [buffer + 4 k], least significant byte first; every other byte keeps
    its content. *)
Theorem device_read_stores (cp15 : Arm.coprocessor) (buffer length : Z)
    (m : Arm.umem) :
  0 <= length < 76 ->
  (forall a, buffer <= a < buffer + length / 4 * 4 -> Arm.writable m a = true) ->
  fst (Arm.device_read cp15 buffer length m) = Arm.Ret (length / 4 * 4)
  /\ (forall k : nat, Z.of_nat k < length / 4 ->
        Arm.holds_word (snd (Arm.device_read cp15 buffer length m))
          (buffer + 4 * Z.of_nat k) (Arm.mrc cp15 k))
  /\ (forall a, a < buffer \/ buffer + length / 4 * 4 <= a ->
        snd (Arm.device_read cp15 buffer length m) a = m a).
Proof.
  intros H W.
  assert (C : 0 <= length / 4 <= 18).
  { split; [apply Z.div_pos; lia |].
    apply Z.lt_succ_r, Z.div_lt_upper_bound; lia. }
  rewrite device_read_eq by lia.
  rewrite Z.min_l by lia.
  set (n := Z.to_nat (length / 4)).
  assert (Hn : Z.of_nat n = length / 4) by (unfold n; lia).
  destruct (device_read_cases_ok n cp15 buffer (length / 4) m) as [R B].
  { intros a Ha. apply W. lia. }
  split; [| split].
  - rewrite R. unfold CInt.INT_MAX.
    destruct (Z.leb_spec (length / 4 * 4) 0x7fffffff); [reflexivity | lia].
  - intros k Hk. apply B. lia.
  - intros a Ha. apply device_read_cases_frame. lia.
Qed.

Lemma device_read_stores_witness :
  fst (Arm.device_read Arm.cp15_pattern 0x1000 8 Arm.small_buffer)
  = Arm.Ret (8 / 4 * 4)
  /\ (forall k : nat, Z.of_nat k < 8 / 4 ->
        Arm.holds_word
          (snd (Arm.device_read Arm.cp15_pattern 0x1000 8 Arm.small_buffer))
          (0x1000 + 4 * Z.of_nat k) (Arm.mrc Arm.cp15_pattern k))
  /\ (forall a, a < 0x1000 \/ 0x1000 + 8 / 4 * 4 <= a ->
        snd (Arm.device_read Arm.cp15_pattern 0x1000 8 Arm.small_buffer) a
        = Arm.small_buffer a).
Proof.
  apply (device_read_stores Arm.cp15_pattern 0x1000 8 Arm.small_buffer);
    [lia |].
  intros a Ha. change (8 / 4 * 4) with 8 in Ha.
  replace a with (0x1000 + (a - 0x1000)) by lia.
  apply small_buffer_writable. lia.
Defined.

(** X14.  A read of 76 bytes or more (below 2^31) stores the eighteen registers,
    72 bytes, and yet returns the length rounded down to a multiple of 4,
    which is more than the 72 bytes stored; bytes from [buffer + 72] on
    keep their content. *)
Theorem device_read_excess_length (cp15 : Arm.coprocessor) (buffer length : Z)
    (m : Arm.umem) :
  76 <= length <= 0x7fffffff ->
  (forall a, buffer <= a < buffer + 72 -> Arm.writable m a = true) ->
  fst (Arm.device_read cp15 buffer length m) = Arm.Ret (length / 4 * 4)
  /\ 72 < length / 4 * 4
  /\ (forall k : nat, (k < 18)%nat ->
        Arm.holds_word (snd (Arm.device_read cp15 buffer length m))
          (buffer + 4 * Z.of_nat k) (Arm.mrc cp15 k))
  /\ (forall a, a < buffer \/ buffer + 72 <= a ->
        snd (Arm.device_read cp15 buffer length m) a = m a).
Proof.
  intros H W.
  assert (C : 19 <= length / 4 <= 0x1fffffff).
  { split; [apply Z.div_le_lower_bound; lia |].
    apply Z.lt_succ_r, Z.div_lt_upper_bound; lia. }
  rewrite device_read_eq by lia.
  rewrite Z.min_r by lia. change (Z.to_nat 18) with 18%nat.
  destruct (device_read_cases_ok 18 cp15 buffer (length / 4) m) as [R B].
  { intros a Ha. apply W. simpl Z.of_nat in Ha. lia. }
  split; [| split; [lia | split]].
  - rewrite R. unfold CInt.INT_MAX.
    destruct (Z.leb_spec (length / 4 * 4) 0x7fffffff); [reflexivity | lia].
  - exact B.
  - intros a Ha. apply device_read_cases_frame. simpl Z.of_nat. lia.
Qed.

Lemma device_read_excess_length_witness :
  fst (Arm.device_read Arm.cp15_pattern 0x2000 100 Arm.large_buffer)
  = Arm.Ret (100 / 4 * 4)
  /\ 72 < 100 / 4 * 4
  /\ (forall k : nat, (k < 18)%nat ->
        Arm.holds_word
          (snd (Arm.device_read Arm.cp15_pattern 0x2000 100 Arm.large_buffer))
          (0x2000 + 4 * Z.of_nat k) (Arm.mrc Arm.cp15_pattern k))
  /\ (forall a, a < 0x2000 \/ 0x2000 + 72 <= a ->
        snd (Arm.device_read Arm.cp15_pattern 0x2000 100 Arm.large_buffer) a
        = Arm.large_buffer a).
Proof.
  apply (device_read_excess_length Arm.cp15_pattern 0x2000 100 Arm.large_buffer);
    [lia |].
  intros a Ha. apply large_buffer_writable. lia.
Defined.

(** X15.  A read of 2^31 bytes or more into 72 writable bytes ends in the
    overflow of [count * 4], an [int] multiplication, not in a returned
    value. *)
Theorem device_read_count_overflow (cp15 : Arm.coprocessor) (buffer length : Z)
    (m : Arm.umem) :
  0x80000000 <= length <= 0xffffffff ->
  (forall a, buffer <= a < buffer + 72 -> Arm.writable m a = true) ->
  fst (Arm.device_read cp15 buffer length m) = Arm.Overflow.
Proof.
  intros H W.
  assert (C : 0x20000000 <= length / 4) by (apply Z.div_le_lower_bound; lia).
  rewrite device_read_eq by lia.
  rewrite Z.min_r by lia. change (Z.to_nat 18) with 18%nat.
  destruct (device_read_cases_ok 18 cp15 buffer (length / 4) m) as [R _].
  { intros a Ha. apply W. simpl Z.of_nat in Ha. lia. }
  rewrite R. unfold CInt.INT_MAX.
  destruct (Z.leb_spec (length / 4 * 4) 0x7fffffff); [lia | reflexivity].
Qed.

Lemma device_read_count_overflow_witness :
  fst (Arm.device_read Arm.cp15_pattern 0x2000 0x80000000 Arm.large_buffer)
  = Arm.Overflow.
Proof.
  apply (device_read_count_overflow Arm.cp15_pattern 0x2000 0x80000000
           Arm.large_buffer); [lia |].
  intros a Ha. apply large_buffer_writable. lia.
Defined.

(** X16.  Whatever the buffer and the registers, [device_read] stores nothing
    below [buffer] and nothing from [buffer + min length 72] on, so never
    past the length the caller gave; and it changes no address between
    writable and not. *)
Theorem device_read_frame (cp15 : Arm.coprocessor) (buffer length : Z)
    (m : Arm.umem) :
  0 <= length <= 0xffffffff ->
  (forall a, a < buffer \/ buffer + Z.min length 72 <= a ->
     snd (Arm.device_read cp15 buffer length m) a = m a)
  /\ (forall a, Arm.writable (snd (Arm.device_read cp15 buffer length m)) a
                = Arm.writable m a).
Proof.
  intros H. rewrite device_read_eq by exact H.
  assert (C : 0 <= length / 4 /\ length / 4 * 4 <= length).
  { split; [apply Z.div_pos; lia |].
    rewrite Z.mul_comm. apply Z.mul_div_le. lia. }
  split.
  - intros a Ha. apply device_read_cases_frame. lia.
  - intros a. apply device_read_cases_writable.
Qed.

Lemma device_read_frame_witness :
  (forall a, a < 0x1000 \/ 0x1000 + Z.min 10 72 <= a ->
     snd (Arm.device_read Arm.cp15_pattern 0x1000 10 Arm.small_buffer) a
     = Arm.small_buffer a)
  /\ (forall a,
        Arm.writable
          (snd (Arm.device_read Arm.cp15_pattern 0x1000 10 Arm.small_buffer)) a
        = Arm.writable Arm.small_buffer a).
Proof.
  apply (device_read_frame Arm.cp15_pattern 0x1000 10 Arm.small_buffer). lia.
Defined.

(** X17.  When a byte of the words [device_read] is to store (the first
    [min (length/4) 18] words) is not writable, it returns [-EFAULT]. *)
Theorem device_read_fault (cp15 : Arm.coprocessor) (buffer length : Z)
    (m : Arm.umem) (a : Z) :
  0 <= length <= 0xffffffff ->
  buffer <= a < buffer + 4 * Z.min (length / 4) 18 ->
  Arm.writable m a = false ->
  fst (Arm.device_read cp15 buffer length m) = Arm.Ret (- Arm.EFAULT).
Proof.
  intros H Ha W. rewrite device_read_eq by exact H.
  apply (device_read_cases_fault _ cp15 buffer (length / 4) m a); [| exact W].
  assert (0 <= length / 4) by (apply Z.div_pos; lia). lia.
Qed.

Lemma device_read_fault_witness :
  fst (Arm.device_read Arm.cp15_pattern 0x1038 16 Arm.small_buffer)
  = Arm.Ret (- Arm.EFAULT).
Proof.
  apply (device_read_fault Arm.cp15_pattern 0x1038 16 Arm.small_buffer 0x1040).
  - lia.
  - simpl. lia.
  - reflexivity.
Defined.

(** ** device_open and device_release *)

Lemma session_step_invariant (s : Arm.session) (op : Arm.file_op) :
  Arm.is_open s = Z.of_nat (Arm.held s) /\ (Arm.held s <= 1)%nat ->
  Arm.is_open (Arm.session_step s op)
  = Z.of_nat (Arm.held (Arm.session_step s op))
  /\ (Arm.held (Arm.session_step s op) <= 1)%nat.
Proof.
  destruct s as [v h]; simpl. intros [E L].
  assert (C : h = 0%nat \/ h = 1%nat) by lia.
  destruct C as [-> | ->]; subst v; destruct op; simpl; split;
    (reflexivity || lia).
Qed.

Lemma session_fold_invariant (ops : list Arm.file_op) (s : Arm.session) :
  Arm.is_open s = Z.of_nat (Arm.held s) /\ (Arm.held s <= 1)%nat ->
  Arm.is_open (fold_left Arm.session_step ops s)
  = Z.of_nat (Arm.held (fold_left Arm.session_step ops s))
  /\ (Arm.held (fold_left Arm.session_step ops s) <= 1)%nat.
Proof.
  revert s; induction ops as [| op ops IH]; intros s I; [exact I |].
  simpl. apply IH. now apply session_step_invariant.
Qed.

(** X18.  One reader at a time: after any sequence of opens and releases the
    counter [is_open] equals the number of files held, which is 0 or 1; an
    open while a file is held returns [-EBUSY] and leaves the counter, an
    open with none held returns 0, and a release by the holder makes the
    device free again. *)
Theorem session_single_holder (ops : list Arm.file_op) :
  Arm.is_open (Arm.session_run ops) = Z.of_nat (Arm.held (Arm.session_run ops))
  /\ (Arm.held (Arm.session_run ops) <= 1)%nat
  /\ (Arm.held (Arm.session_run ops) = 1%nat ->
      Arm.device_open (Arm.is_open (Arm.session_run ops)) = (- Arm.EBUSY, 1)
      /\ Arm.device_release (Arm.is_open (Arm.session_run ops)) = (0, 0))
  /\ (Arm.held (Arm.session_run ops) = 0%nat ->
      Arm.device_open (Arm.is_open (Arm.session_run ops)) = (0, 1)).
Proof.
  destruct (session_fold_invariant ops (Arm.mk_session 0 0)) as [E L];
    [split; [reflexivity | simpl; lia] |].
  fold (Arm.session_run ops) in E, L.
  split; [exact E |]. split; [exact L |].
  split; intros H; rewrite E, H; [split |]; reflexivity.
Qed.

Lemma stop_condition_default_witness :
  stop_condition 0x4 2 (hw_repeat 0x4 2) (hw_repeat 0x4 1) = true
  <-> hw_repeat 0x4 2 = zero_result \/ hw_repeat 0x4 1 = hw_repeat 0x4 2.
Proof.
  apply (stop_condition_default 0x4 2 (hw_repeat 0x4 2) (hw_repeat 0x4 1));
    try lia;
    unfold well_typed, CInt.in_uint32, CInt.UINT32_MAX; simpl; lia.
Defined.
